(** * PR review agent: analysis aggregation, feedback and scoring

    A shallow embedding of [core/analyzer.py], [core/scorer.py],
    [core/feedback.py] and [utils/ai_helpers.py], and the properties the
    specification states about them.

    Conventions of the embedding.
    - An issue or feedback item is a Python [dict]; every key the code reads
      is a field of type [option _] ([None] = key absent), and
      [d.get(k, dflt)] is [default dflt (k d)].
    - Python [dict]s that the code iterates are insertion ordered: they are
      association lists in insertion order.  Dicts that are only indexed
      (constant tables, counters, the score breakdown) are [gmap]s, Python
      [set]s are [gset]s.
    - Python [float]s are exact rationals [Q]: every constant of the scorer
      is a decimal with at most two digits, and the properties below are
      stated up to [Qeq].  Binary rounding of the floating point unit is not
      modelled.
    - An exception is a value of [exn]; code that may raise returns
      [result _] and is sequenced with the bind of that monad; [try/except]
      is a [match] on the result. *)

From Stdlib Require Import Ascii String QArith Qround Lqa Lia DecimalString.
From Stdlib Require OrdersEx.
From stdpp Require Import base list gmap sets strings sorting.

Set Default Proof Using "Type".

(** ** Python runtime *)

Module Py.

Inductive exn :=
| KeyError (key : string)
| Exception (msg : string).

Inductive result (A : Type) :=
| Ok (a : A)
| Raise (e : exn).
Arguments Ok {A} a.
Arguments Raise {A} e.

#[export] Instance result_ret : MRet result := λ A a, Ok a.
#[export] Instance result_bind : MBind result := λ A B f m,
  match m with
  | Ok a => f a
  | Raise e => Raise e
  end.

(** [for x in xs: st = body(st, x)] where the body may raise. *)
Fixpoint for_each {S A} (body : S → A → result S) (st : S) (xs : list A)
  : result S :=
  match xs with
  | [] => Ok st
  | x :: xs' => st' ← body st x; for_each body st' xs'
  end.

(** [d[k] += 1] on a dict of counters: raises [KeyError] when [k] is not
    a key of [d]. *)
Definition incr_item (d : gmap string nat) (k : string)
  : result (gmap string nat) :=
  match d !! k with
  | Some n => Ok (<[k := S n]> d)
  | None => Raise (KeyError k)
  end.

(** [d[k] = d.get(k, 0) + 1]. *)
Definition count_item (d : gmap string nat) (k : string) : gmap string nat :=
  <[k := S (default 0%nat (d !! k))]> d.

(** [if k not in d: d[k] = []] then [d[k].append(x)], on an insertion
    ordered dict of lists. *)
Fixpoint group_append {V} (d : list (string * list V)) (k : string) (x : V)
  : list (string * list V) :=
  match d with
  | [] => [(k, [x])]
  | (k', v) :: d' =>
      if decide (k = k') then (k', v ++ [x]) :: d'
      else (k', v) :: group_append d' k x
  end.

(** [d.get(k)] on an insertion ordered dict. *)
Fixpoint dict_get {V} (d : list (string * V)) (k : string) : option V :=
  match d with
  | [] => None
  | (k', v) :: d' => if decide (k = k') then Some v else dict_get d' k
  end.

(** Truthiness of [d.get(k)] for a string and for an integer value. *)
Definition truthy_str (o : option string) : bool :=
  match o with
  | Some s => negb (String.eqb s "")
  | None => false
  end.

Definition truthy_int (o : option Z) : bool :=
  match o with
  | Some n => negb (n =? 0)%Z
  | None => false
  end.

(** [str(n)] for integers. *)
Definition str_of_Z (n : Z) : string := NilZero.string_of_int (Z.to_int n).
Definition str_of_nat (n : nat) : string := str_of_Z (Z.of_nat n).

(** [s.startswith(p)], [needle in s] *)
Definition startswith (s p : string) : bool := String.prefix p s.

Fixpoint contains (needle s : string) : bool :=
  String.prefix needle s ||
  match s with
  | EmptyString => false
  | String _ s' => contains needle s'
  end.

(** [s.lower()] on the ASCII letters; other bytes are unchanged. *)
Definition lower_ascii (c : ascii) : ascii :=
  let n := nat_of_ascii c in
  if (65 <=? n)%nat && (n <=? 90)%nat then ascii_of_nat (n + 32) else c.

Fixpoint lower (s : string) : string :=
  match s with
  | EmptyString => EmptyString
  | String c s' => String (lower_ascii c) (lower s')
  end.

(** [s.strip()]: whitespace removed at both ends. *)
Definition is_space (c : ascii) : bool :=
  let n := nat_of_ascii c in
  ((9 <=? n)%nat && (n <=? 13)%nat) || ((28 <=? n)%nat && (n <=? 32)%nat).

Fixpoint lstrip (s : string) : string :=
  match s with
  | String c s' => if is_space c then lstrip s' else s
  | EmptyString => EmptyString
  end.

Fixpoint rstrip (s : string) : string :=
  match s with
  | String c s' =>
      match rstrip s' with
      | EmptyString => if is_space c then EmptyString else String c EmptyString
      | r => String c r
      end
  | EmptyString => EmptyString
  end.

Definition strip (s : string) : string := rstrip (lstrip s).

(** [max(a, b)] returns [b] only when it is strictly greater. *)
Definition max (a b : Q) : Q := if Qlt_le_dec a b then b else a.

(** [x >= y] on numbers *)
Definition ge (x y : Q) : bool := Qle_bool y x.

(** Rounding to the nearest integer, ties to the even one: the rule of
    [round] and of the [.1f] format. *)
Definition round_half_even (x : Q) : Z :=
  let f := Qfloor x in
  match (x - inject_Z f ?= 1 # 2)%Q with
  | Lt => f
  | Gt => (f + 1)%Z
  | Eq => if Z.even f then f else (f + 1)%Z
  end.

(** [round(x, 1)] *)
Definition round1 (x : Q) : Q := round_half_even (x * 10)%Q # 10.

(** [f"{x:.1f}"] *)
Definition format_1f (x : Q) : string :=
  let t := round_half_even (x * 10)%Q in
  let a := Z.abs t in
  (if (t <? 0)%Z then "-" else "") +:+
  str_of_Z (a / 10) +:+ "." +:+ str_of_Z (a mod 10).

End Py.
Import Py.

(** ** Issues *)

(** An issue record as the tools report it. *)
Record Issue := {
  file : option string;
  line : option Z;
  severity : option string;
  category : option string;
  tool : option string;
  message : option string;
  code : option string;
  complexity : option Z;
  function : option string;
  test_id : option string;
  confidence : option string
}.

(** ** core/analyzer.py *)

Module Analyzer.

(** [Analyzer._get_severity_from_code] *)
Definition _get_severity_from_code (code : string) : string :=
  if startswith code "E" then "error"
  else if startswith code "W" then "warning"
  else if startswith code "F" then "error"
  else "info".

Definition issue_key : Type := string * Z * string.

(** [key = (issue.get('file', ''), issue.get('line', 0),
           issue.get('message', ''))] *)
Definition key_of (issue : Issue) : issue_key :=
  (default "" (file issue), default 0%Z (line issue),
   default "" (message issue)).

(** One iteration of the loop of [_deduplicate_issues] on the state
    [(seen, unique_issues)]. *)
Definition dedup_step (st : gset issue_key * list Issue) (issue : Issue)
  : gset issue_key * list Issue :=
  let '(seen, unique_issues) := st in
  let key := key_of issue in
  if decide (key ∉ seen)
  then ({[key]} ∪ seen, unique_issues ++ [issue])
  else (seen, unique_issues).

(** [Analyzer._deduplicate_issues] *)
Definition _deduplicate_issues (issues : list Issue) : list Issue :=
  (foldl dedup_step (∅, []) issues).2.

(** The positions of [issues] that hold the first occurrence of their
    key, in increasing order, and the issues at these positions: the
    result the specification asks of deduplication. *)
Definition is_first_occurrence (issues : list Issue) (p : nat) : bool :=
  match issues !! p with
  | Some i => bool_decide (key_of i ∉ key_of <$> take p issues)
  | None => false
  end.

Definition first_occurrences (issues : list Issue) : list Issue :=
  omap (λ p, issues !! p)
       (filter (λ p, is_first_occurrence issues p = true)
               (seq 0 (length issues))).

End Analyzer.

(** ** core/scorer.py *)

Module Scorer.

Local Open Scope Q_scope.

(** [PRScorer.__init__]: the three tables. *)
Definition category_weights : gmap string Q :=
  list_to_map
    [("security", 0.3); ("error", 0.25); ("complexity", 0.2);
     ("style", 0.15); ("maintainability", 0.1); ("maintenance", 0.05);
     ("unknown", 0.1)].

Definition severity_penalties : gmap string Q :=
  list_to_map
    [("error", 20); ("high", 15); ("medium", 10); ("low", 5); ("info", 2)].

Definition tool_weights : gmap string Q :=
  list_to_map
    [("bandit", 1.5); ("safety", 1.5); ("radon", 1.2); ("flake8", 1.0);
     ("custom", 0.8); ("ai", 1.1)].

(** The dict [_calculate_metrics] returns. *)
Record Metrics := {
  total_issues : nat;
  issues_by_severity : gmap string nat;
  issues_by_category : gmap string nat;
  issues_by_tool : gmap string nat;
  files_affected : nat;
  lines_affected : nat
}.

(** The dict [score] returns; the result for an empty input has no
    ['metrics'] and no ['recommendations'] key. *)
Record ScoreResult := {
  total_score : Q;
  grade : string;
  breakdown : gmap string Q;
  summary : string;
  metrics : option Metrics;
  recommendations : option (list string)
}.

(** [PRScorer._group_issues_by_category] *)
Definition _group_issues_by_category (issues : list Issue)
  : list (string * list Issue) :=
  foldl (λ categories issue,
           group_append categories (default "unknown" (category issue)) issue)
        [] issues.

(** The body of the loop of [_calculate_category_penalty]. *)
Definition penalty_step (category : string) (penalty : Q) (issue : Issue) : Q :=
  let severity := default "info" (severity issue) in
  let tool := default "unknown" (tool issue) in
  let base_penalty := default 5 (severity_penalties !! severity) in
  let tool_weight := default 1.0 (tool_weights !! tool) in
  let base_penalty :=
    if decide (category = "security") then base_penalty * 1.5
    else if decide (category = "error") then base_penalty * 1.3
    else if decide (category = "complexity") then base_penalty * 1.2
    else base_penalty in
  penalty + base_penalty * tool_weight.

(** [PRScorer._calculate_category_penalty] *)
Definition _calculate_category_penalty (category : string)
    (issues : list Issue) : Q :=
  foldl (penalty_step category) 0 issues.

(** [PRScorer._calculate_grade] *)
Definition _calculate_grade (score : Q) : string :=
  if ge score 95 then "A+"
  else if ge score 90 then "A"
  else if ge score 85 then "A-"
  else if ge score 80 then "B+"
  else if ge score 75 then "B"
  else if ge score 70 then "B-"
  else if ge score 65 then "C+"
  else if ge score 60 then "C"
  else if ge score 55 then "C-"
  else if ge score 50 then "D"
  else "F".

(** [d[k]] for the counters of [_generate_summary], which hold all five
    keys whenever they are read. *)
Definition counter (d : gmap string nat) (k : string) : nat :=
  default 0%nat (d !! k).

(** [k in d and d[k] > 0] *)
Definition present_positive (d : gmap string nat) (k : string) : bool :=
  match d !! k with
  | Some n => (0 <? n)%nat
  | None => false
  end.

(** The body of the first loop of [_generate_summary]:
    [severity_counts[severity] += 1] raises [KeyError] for a severity that
    is not one of the five keys. *)
Definition count_severity (severity_counts : gmap string nat) (issue : Issue)
  : result (gmap string nat) :=
  let severity := default "info" (severity issue) in
  incr_item severity_counts severity.

(** [PRScorer._generate_summary] *)
Definition _generate_summary (issues : list Issue) (score : Q)
    (category_scores : gmap string Q) : result string :=
  let severity_counts : gmap string nat :=
    list_to_map [("error", 0); ("high", 0); ("medium", 0); ("low", 0);
                 ("info", 0)]%nat in
  severity_counts ←
    for_each count_severity severity_counts issues;
  let category_counts :=
    foldl (λ category_counts issue,
             let category := default "unknown" (category issue) in
             count_item category_counts category)
          (∅ : gmap string nat) issues in
  let summary :=
    if ge score 90 then
      "Excellent code quality! Score: " +:+ format_1f score +:+ "/100. "
    else if ge score 80 then
      "Good code quality with minor issues. Score: " +:+ format_1f score
        +:+ "/100. "
    else if ge score 70 then
      "Code quality needs improvement. Score: " +:+ format_1f score
        +:+ "/100. "
    else if ge score 60 then
      "Code quality is below standards. Score: " +:+ format_1f score
        +:+ "/100. "
    else
      "Code quality is poor and needs significant improvement. Score: "
        +:+ format_1f score +:+ "/100. " in
  let summary :=
    if (0 <? counter severity_counts "error")%nat then
      summary +:+ "Found " +:+ str_of_nat (counter severity_counts "error")
        +:+ " errors. "
    else summary in
  let summary :=
    if (0 <? counter severity_counts "high")%nat then
      summary +:+ "Found " +:+ str_of_nat (counter severity_counts "high")
        +:+ " high-severity issues. "
    else summary in
  let summary :=
    if (0 <? counter severity_counts "medium")%nat then
      summary +:+ "Found " +:+ str_of_nat (counter severity_counts "medium")
        +:+ " medium-severity issues. "
    else summary in
  let summary :=
    if present_positive category_counts "security" then
      summary +:+ "Security issues detected ("
        +:+ str_of_nat (counter category_counts "security") +:+ "). "
    else summary in
  let summary :=
    if present_positive category_counts "complexity" then
      summary +:+ "Complexity issues found ("
        +:+ str_of_nat (counter category_counts "complexity") +:+ "). "
    else summary in
  Ok (strip summary).

(** The [metrics] dict while the loop of [_calculate_metrics] runs: the two
    ['..._affected'] entries are sets until the loop has ended. *)
Record MetricsAcc := {
  acc_by_severity : gmap string nat;
  acc_by_category : gmap string nat;
  acc_by_tool : gmap string nat;
  acc_files : gset string;
  acc_lines : gset Z
}.

Definition metrics_step (m : MetricsAcc) (issue : Issue) : MetricsAcc :=
  let severity := default "info" (severity issue) in
  let category := default "unknown" (category issue) in
  let tool := default "unknown" (tool issue) in
  {| acc_by_severity := count_item (acc_by_severity m) severity;
     acc_by_category := count_item (acc_by_category m) category;
     acc_by_tool := count_item (acc_by_tool m) tool;
     acc_files :=
       if truthy_str (file issue)
       then {[default "" (file issue)]} ∪ acc_files m else acc_files m;
     acc_lines :=
       if truthy_int (line issue)
       then {[default 0%Z (line issue)]} ∪ acc_lines m else acc_lines m |}.

(** [PRScorer._calculate_metrics] *)
Definition _calculate_metrics (issues : list Issue) : Metrics :=
  let m :=
    foldl metrics_step
          {| acc_by_severity := ∅; acc_by_category := ∅; acc_by_tool := ∅;
             acc_files := ∅; acc_lines := ∅ |}
          issues in
  {| total_issues := length issues;
     issues_by_severity := acc_by_severity m;
     issues_by_category := acc_by_category m;
     issues_by_tool := acc_by_tool m;
     files_affected := size (acc_files m);
     lines_affected := size (acc_lines m) |}.

(** [if cond: recommendations.append(text)] *)
Definition append_if (cond : bool) (recommendations : list string)
    (text : string) : list string :=
  if cond then recommendations ++ [text] else recommendations.

(** A list is true when it is not empty. *)
Definition nonempty {A} (l : list A) : bool :=
  match l with [] => false | _ => true end.

Definition rec_security : string :=
  "🔒 Address security issues immediately - these are critical for production safety".
Definition rec_errors : string :=
  "❌ Fix all errors before merging - these will cause runtime failures".
Definition rec_complexity : string :=
  "🧩 Refactor complex functions to improve maintainability".
Definition rec_style : string :=
  "📝 Fix style issues to improve code readability".
Definition rec_split : string :=
  "📊 Consider breaking this PR into smaller, more focused changes".
Definition rec_review : string :=
  "🔍 Review the code more carefully before submitting".
Definition rec_scans : string :=
  "🛡️ Run security scans regularly in your development workflow".
Definition rec_ci : string :=
  "📊 Consider adding complexity checks to your CI/CD pipeline".

(** [PRScorer._generate_recommendations] *)
Definition _generate_recommendations (issues : list Issue)
    (category_scores : gmap string Q) : list string :=
  let recommendations := [] in
  let security_issues := filter (λ i, category i = Some "security") issues in
  let recommendations :=
    append_if (nonempty security_issues) recommendations rec_security in
  let error_issues := filter (λ i, severity i = Some "error") issues in
  let recommendations :=
    append_if (nonempty error_issues) recommendations rec_errors in
  let complexity_issues :=
    filter (λ i, category i = Some "complexity") issues in
  let recommendations :=
    append_if (nonempty complexity_issues) recommendations rec_complexity in
  let style_issues := filter (λ i, category i = Some "style") issues in
  let recommendations :=
    append_if (nonempty style_issues) recommendations rec_style in
  let total_issues := length issues in
  let recommendations :=
    if (20 <? total_issues)%nat then recommendations ++ [rec_split]
    else if (10 <? total_issues)%nat then recommendations ++ [rec_review]
    else recommendations in
  let recommendations :=
    append_if (existsb (λ i, bool_decide (tool i = Some "bandit")) issues)
              recommendations rec_scans in
  let recommendations :=
    append_if (existsb (λ i, bool_decide (tool i = Some "radon")) issues)
              recommendations rec_ci in
  recommendations.

(** The body of the loop of [score] over [issues_by_category.items()], on
    the state [(category_scores, total_penalty)]. *)
Definition score_step (st : gmap string Q * Q)
    (entry : string * list Issue) : gmap string Q * Q :=
  let '(category_scores, total_penalty) := st in
  let '(category, category_issues) := entry in
  let category_penalty :=
    _calculate_category_penalty category category_issues in
  (<[category := Py.max 0 (100 - category_penalty)]> category_scores,
   total_penalty
   + category_penalty * default 0.1 (category_weights !! category)).

(** The result of [score] on an empty input. *)
Definition perfect_result : ScoreResult :=
  {| total_score := 100;
     grade := "A+";
     breakdown :=
       list_to_map [("security", 100); ("quality", 100);
                    ("maintainability", 100); ("style", 100)];
     summary := "No issues found - excellent code quality!";
     metrics := None;
     recommendations := None |}.

(** [PRScorer.score] *)
Definition score (issues : list Issue) : result ScoreResult :=
  if negb (nonempty issues) then Ok perfect_result
  else
    let base_score := 100 in
    let issues_by_category := _group_issues_by_category issues in
    let '(category_scores, total_penalty) :=
      foldl score_step (∅, 0) issues_by_category in
    let final_score := Py.max 0 (base_score - total_penalty) in
    let grade := _calculate_grade final_score in
    summary ← _generate_summary issues final_score category_scores;
    let metrics := _calculate_metrics issues in
    Ok {| total_score := round1 final_score;
          grade := grade;
          breakdown := category_scores;
          summary := summary;
          metrics := Some metrics;
          recommendations :=
            Some (_generate_recommendations issues category_scores) |}.

End Scorer.

(** ** Feedback items *)

(** A feedback item; as for issues, a key that is absent is [None]. *)
Record FeedbackItem := {
  fb_file : option string;
  fb_line : option Z;
  fb_severity : option string;
  fb_category : option string;
  fb_message : option string;
  fb_suggestions : option (list string);
  fb_code : option string;
  fb_complexity : option Z;
  fb_test_id : option string;
  fb_confidence : option string;
  fb_tool : option string
}.

(** ** utils/ai_helpers.py *)

Module AIHelper.

(** An [AIHelper] object: its [enabled] attribute and the three private
    methods [generate_feedback] calls.  [_call_openai] is the request to
    the external service; with [_prepare_context] and
    [_parse_ai_response] it is left abstract, so that what is proved of
    [generate_feedback] holds whatever these methods do. *)
Record t := {
  enabled : bool;
  _prepare_context : string → list Issue → string;
  _call_openai : string → result string;
  _parse_ai_response : string → list Issue → result (list FeedbackItem)
}.

(** [AIHelper.generate_feedback]: [except Exception] returns [[]]. *)
Definition generate_feedback (self : t) (file_path : string)
    (issues : list Issue) : result (list FeedbackItem) :=
  if negb (enabled self) then Ok []
  else
    match
      (let context := _prepare_context self file_path issues in
       ai_response ← _call_openai self context;
       _parse_ai_response self ai_response issues)
    with
    | Ok feedback_items => Ok feedback_items
    | Raise e => Ok []
    end.

End AIHelper.

(** ** core/feedback.py *)

Module Feedback.

(** [FeedbackGenerator]: [use_ai] and [ai_helper].  Of the helper object
    only its [generate_feedback] method is used. *)
Record FeedbackGenerator := {
  use_ai : bool;
  ai_helper : option (string → list Issue → result (list FeedbackItem))
}.

(** [FeedbackGenerator.__init__], given the value of the environment
    variable [OPENAI_API_KEY] and the helper [AIHelper()] builds. *)
Definition new (use_ai : bool) (openai_api_key : option string)
    (helper : AIHelper.t) : FeedbackGenerator :=
  let use_ai := use_ai && truthy_str openai_api_key in
  {| use_ai := use_ai;
     ai_helper :=
       if use_ai then Some (AIHelper.generate_feedback helper) else None |}.

(** [self.templates] *)
Definition templates : gmap string (gmap string string) :=
  list_to_map
    [("style", list_to_map
        [("E501", "Line too long ({length} characters). Consider breaking it into multiple lines or using line continuation.");
         ("E302", "Expected 2 blank lines before class definition.");
         ("E305", "Expected 2 blank lines after class or function definition.");
         ("W293", "Blank line contains whitespace. Remove trailing whitespace.");
         ("E111", "Indentation is not a multiple of four spaces.");
         ("E112", "Expected an indented block.")]);
     ("error", list_to_map
        [("F841", "Variable '{var_name}' is assigned but never used. Consider removing it or using it.");
         ("F401", "Module '{module}' imported but unused. Remove the import if not needed.");
         ("F821", "Undefined name '{name}'. Check for typos or missing imports.");
         ("F823", "Local variable '{var_name}' referenced before assignment.")]);
     ("security", list_to_map
        [("B101", "Use of hardcoded password detected. Use environment variables or secure configuration.");
         ("B102", "Use of exec() detected. This can be dangerous if user input is involved.");
         ("B301", "Use of pickle module detected. This can be unsafe for untrusted data.");
         ("B302", "Use of marshal module detected. This can be unsafe for untrusted data.")]);
     ("complexity", list_to_map
        [("high_complexity", "Function '{function}' has high cyclomatic complexity ({complexity}). Consider breaking it into smaller functions.");
         ("large_function", "Function '{function}' is too large ({lines} lines). Consider refactoring into smaller functions.")])].

(** [FeedbackGenerator._generate_flake8_feedback] *)
Definition _generate_flake8_feedback (issue : Issue) : FeedbackItem :=
  let code := default "" (code issue) in
  let message := default "" (message issue) in
  let line := default 0%Z (line issue) in
  let template_msg :=
    default message (default ∅ (templates !! "style") !! code) in
  let suggestions :=
    if decide (code = "E501") then
      ["Break long lines using parentheses, backslashes, or string concatenation"]
    else if decide (code = "F841") then
      ["Remove unused variable or use it in your code"]
    else if decide (code = "F401") then
      ["Remove unused import or use the imported module"]
    else [] in
  {| fb_file := Some (default "" (file issue));
     fb_line := Some line;
     fb_severity := Some (default "info" (severity issue));
     fb_category := Some "style";
     fb_message := Some template_msg;
     fb_suggestions := Some suggestions;
     fb_code := Some code;
     fb_complexity := None;
     fb_test_id := None;
     fb_confidence := None;
     fb_tool := Some "flake8" |}.

(** [FeedbackGenerator._generate_security_feedback] *)
Definition _generate_security_feedback (issue : Issue) : FeedbackItem :=
  let message := default "" (message issue) in
  let test_id := default "" (test_id issue) in
  let confidence := default "medium" (confidence issue) in
  let suggestions :=
    if contains "hardcoded" (lower message) then
      ["Use environment variables or secure configuration management";
       "Consider using a secrets management service"]
    else if contains "exec" (lower message) then
      ["Avoid using exec() with user input";
       "Consider using safer alternatives like ast.literal_eval()"]
    else [] in
  {| fb_file := Some (default "" (file issue));
     fb_line := Some (default 0%Z (line issue));
     fb_severity := Some (default "high" (severity issue));
     fb_category := Some "security";
     fb_message := Some ("Security issue: " +:+ message);
     fb_suggestions := Some suggestions;
     fb_code := None;
     fb_complexity := None;
     fb_test_id := Some test_id;
     fb_confidence := Some confidence;
     fb_tool := Some "bandit" |}.

(** [FeedbackGenerator._generate_complexity_feedback] *)
Definition _generate_complexity_feedback (issue : Issue) : FeedbackItem :=
  let complexity := default 0%Z (complexity issue) in
  let function := default "unknown" (function issue) in
  let suggestions :=
    ["Break the function into smaller, single-purpose functions";
     "Extract complex logic into separate methods";
     "Consider using design patterns like Strategy or Command";
     "Add early returns to reduce nesting"] in
  {| fb_file := Some (default "" (file issue));
     fb_line := Some (default 0%Z (line issue));
     fb_severity := Some (default "medium" (severity issue));
     fb_category := Some "complexity";
     fb_message :=
       Some ("High complexity in " +:+ function +:+ " ("
             +:+ str_of_Z complexity +:+ ")");
     fb_suggestions := Some suggestions;
     fb_code := None;
     fb_complexity := Some complexity;
     fb_test_id := None;
     fb_confidence := None;
     fb_tool := Some "radon" |}.

(** [FeedbackGenerator._generate_custom_feedback] *)
Definition _generate_custom_feedback (issue : Issue) : FeedbackItem :=
  let category := default "unknown" (category issue) in
  let message := default "" (message issue) in
  let suggestions :=
    if decide (category = "security") then
      ["Review the code for potential security vulnerabilities";
       "Consider using secure coding practices"]
    else if decide (category = "maintenance") then
      ["Address TODO/FIXME comments before merging";
       "Consider creating issues for future improvements"]
    else [] in
  {| fb_file := Some (default "" (file issue));
     fb_line := Some (default 0%Z (line issue));
     fb_severity := Some (default "low" (severity issue));
     fb_category := Some category;
     fb_message := Some message;
     fb_suggestions := Some suggestions;
     fb_code := None;
     fb_complexity := None;
     fb_test_id := None;
     fb_confidence := None;
     fb_tool := Some "custom" |}.

(** [FeedbackGenerator._generate_generic_feedback] *)
Definition _generate_generic_feedback (issue : Issue) : FeedbackItem :=
  {| fb_file := Some (default "" (file issue));
     fb_line := Some (default 0%Z (line issue));
     fb_severity := Some (default "info" (severity issue));
     fb_category := Some (default "unknown" (category issue));
     fb_message := Some (default "Unknown issue" (message issue));
     fb_suggestions := Some ["Review the code for potential improvements"];
     fb_code := None;
     fb_complexity := None;
     fb_test_id := None;
     fb_confidence := None;
     fb_tool := Some (default "unknown" (tool issue)) |}.

(** The body of the loop of [_generate_template_feedback]: the dispatch on
    the tool. *)
Definition template_feedback (issue : Issue) : FeedbackItem :=
  let tool := default "unknown" (tool issue) in
  if decide (tool = "flake8") then _generate_flake8_feedback issue
  else if decide (tool = "bandit") then _generate_security_feedback issue
  else if decide (tool = "radon") then _generate_complexity_feedback issue
  else if decide (tool = "custom") then _generate_custom_feedback issue
  else _generate_generic_feedback issue.

(** [FeedbackGenerator._generate_template_feedback] *)
Definition _generate_template_feedback (issues : list Issue)
  : list FeedbackItem :=
  foldl (λ feedback_items issue, feedback_items ++ [template_feedback issue])
        [] issues.

(** The tuple [sort_key] returns and the order of Python tuples on it:
    lexicographic, strings compared by code point. *)
Definition sort_key_t : Type := nat * string * Z.

Definition key_leb (a b : sort_key_t) : bool :=
  let '(r1, c1, l1) := a in
  let '(r2, c2, l2) := b in
  match Nat.compare r1 r2 with
  | Lt => true
  | Gt => false
  | Eq =>
      match String.compare c1 c2 with
      | Lt => true
      | Gt => false
      | Eq => (l1 <=? l2)%Z
      end
  end.

Definition severity_order : gmap string nat :=
  list_to_map
    [("error", 0); ("high", 1); ("medium", 2); ("low", 3); ("info", 4)]%nat.

(** [sort_key] of [_prioritize_feedback] *)
Definition sort_key (item : FeedbackItem) : sort_key_t :=
  let severity := default "info" (fb_severity item) in
  let category := default "unknown" (fb_category item) in
  let line := default 0%Z (fb_line item) in
  (default 5%nat (severity_order !! severity), category, line).

(** [sorted(xs, key=key)]: the stable sort of [xs] by ascending key, here
    by insertion from the right, each element going in front of the first
    element whose key is not smaller. *)
Fixpoint insert_by {A} (leb : A → A → bool) (x : A) (l : list A) : list A :=
  match l with
  | [] => [x]
  | y :: l' => if leb x y then x :: y :: l' else y :: insert_by leb x l'
  end.

Definition sorted {A K} (leb : K → K → bool) (key : A → K) (xs : list A)
  : list A :=
  foldr (insert_by (λ a b, leb (key a) (key b))) [] xs.

(** [FeedbackGenerator._prioritize_feedback] *)
Definition _prioritize_feedback (feedback_items : list FeedbackItem)
  : list FeedbackItem :=
  sorted key_leb sort_key feedback_items.

(** The body of the loop of [generate] over [issues_by_file.items()]. *)
Definition generate_step (self : FeedbackGenerator)
    (feedback_items : list FeedbackItem) (entry : string * list Issue)
  : list FeedbackItem :=
  let '(file_path, file_issues) := entry in
  match use_ai self, ai_helper self with
  | true, Some generate_feedback =>
      match generate_feedback file_path file_issues with
      | Ok ai_feedback => feedback_items ++ ai_feedback
      | Raise e => feedback_items ++ _generate_template_feedback file_issues
      end
  | _, _ => feedback_items ++ _generate_template_feedback file_issues
  end.

(** [FeedbackGenerator.generate] *)
Definition generate (self : FeedbackGenerator) (issues : list Issue)
  : list FeedbackItem :=
  let issues_by_file :=
    foldl (λ issues_by_file issue,
             group_append issues_by_file
               (default "unknown" (file issue)) issue)
          [] issues in
  _prioritize_feedback (foldl (generate_step self) [] issues_by_file).

End Feedback.

(** ** The scoring rules in the words of the specification *)

Module ScoreSpec.

Local Open Scope Q_scope.

Definition severityPenalty (severity : string) : Q :=
  if decide (severity = "error") then 20
  else if decide (severity = "high") then 15
  else if decide (severity = "medium") then 10
  else if decide (severity = "low") then 5
  else if decide (severity = "info") then 2
  else 5.

Definition toolWeight (tool : string) : Q :=
  if decide (tool = "bandit") then 1.5
  else if decide (tool = "safety") then 1.5
  else if decide (tool = "radon") then 1.2
  else if decide (tool = "flake8") then 1.0
  else if decide (tool = "custom") then 0.8
  else if decide (tool = "ai") then 1.1
  else 1.0.

Definition categoryMultiplier (category : string) : Q :=
  if decide (category = "security") then 1.5
  else if decide (category = "error") then 1.3
  else if decide (category = "complexity") then 1.2
  else 1.0.

Definition categoryWeight (category : string) : Q :=
  if decide (category = "security") then 0.30
  else if decide (category = "error") then 0.25
  else if decide (category = "complexity") then 0.20
  else if decide (category = "style") then 0.15
  else if decide (category = "maintainability") then 0.10
  else if decide (category = "maintenance") then 0.05
  else 0.10.

(** The fields of an issue as the scorer reads them. *)
Definition severity_of (i : Issue) : string := default "info" (severity i).
Definition tool_of (i : Issue) : string := default "unknown" (tool i).
Definition category_of (i : Issue) : string := default "unknown" (category i).

(** penalty = severityPenalty(severity) x toolWeight(tool)
              x categoryMultiplier(category) *)
Definition issuePenalty (category : string) (i : Issue) : Q :=
  severityPenalty (severity_of i) * toolWeight (tool_of i)
  * categoryMultiplier category.

Definition sum (xs : list Q) : Q := foldr Qplus 0 xs.

(** The penalty of a category: the sum over the issues of that category. *)
Definition categoryPenalty (issues : list Issue) (category : string) : Q :=
  sum (issuePenalty category
         <$> filter (λ i, category_of i = category) issues).





(** The severities that have a counter in the summary. *)
Definition recognised (severity : string) : Prop :=
  severity ∈ ["error"; "high"; "medium"; "low"; "info"].

(** The file and the line of an issue that the metrics count. *)
Definition counted_file (i : Issue) : option string :=
  match file i with
  | Some f => if decide (f = "") then None else Some f
  | None => None
  end.

Definition counted_line (i : Issue) : option Z :=
  match line i with
  | Some n => if decide (n = 0%Z) then None else Some n
  | None => None
  end.

(** The number of distinct elements of a list. *)
Definition distinct {A} `{!EqDecision A} (l : list A) : nat :=
  length (remove_dups l).

End ScoreSpec.

(** ** Inputs of the examples *)

Module Examples.

(** An issue that holds the six fields every tool reports. *)
Definition issue (file : string) (line : Z)
    (severity category tool message : string) : Issue :=
  {| file := Some file; line := Some line; severity := Some severity;
     category := Some category; tool := Some tool; message := Some message;
     code := None; complexity := None; function := None; test_id := None;
     confidence := None |}.

(** The input of the scenario of the specification. *)
Definition hardcoded_secret : Issue :=
  issue "x.py" 10 "high" "security" "bandit-like"
        "Potential hardcoded secret detected".

(** The same finding reported by bandit. *)
Definition hardcoded_secret_bandit : Issue :=
  issue "x.py" 10 "high" "security" "bandit"
        "Potential hardcoded secret detected".

(** An error of the security category, as the dependency scanner or the
    built-in checker may report it. *)
Definition security_error : Issue :=
  issue "app.py" 7 "error" "security" "custom" "Unsafe call".

(** What [score] returns for the scenario input. *)
Definition hardcoded_secret_score : Scorer.ScoreResult :=
  Eval vm_compute in
    match Scorer.score [hardcoded_secret] with
    | Ok r => r
    | Raise _ => Scorer.perfect_result
    end.




(** What [Analyzer._run_safety] reports: a finding of the manifest, with
    no line. *)
Definition vulnerable_dependency : Issue :=
  {| file := Some "requirements.txt"; line := None; severity := Some "high";
     category := Some "security"; tool := Some "safety";
     message := Some "Vulnerable dependency: requests 2.0.0";
     code := None; complexity := None; function := None; test_id := None;
     confidence := None |}.

Definition two_findings : list Issue :=
  [hardcoded_secret; vulnerable_dependency].

Definition two_findings_score : Scorer.ScoreResult :=
  Eval vm_compute in
    match Scorer.score two_findings with
    | Ok r => r
    | Raise _ => Scorer.perfect_result
    end.

(** A generator that uses the templates only. *)
Definition template_generator : Feedback.FeedbackGenerator :=
  {| Feedback.use_ai := false; Feedback.ai_helper := None |}.

(** One issue for each of two files. *)
Definition issue_a : Issue :=
  issue "a.py" 1 "medium" "style" "flake8" "Line too long".
Definition issue_b : Issue :=
  issue "b.py" 2 "low" "maintenance" "custom" "Found TODO: later".

(** A feedback item as [_parse_ai_response] builds them. *)
Definition ai_item (file : string) (message : string) : FeedbackItem :=
  {| fb_file := Some file; fb_line := Some 0%Z; fb_severity := Some "info";
     fb_category := Some "ai_feedback"; fb_message := Some message;
     fb_suggestions := Some []; fb_code := None; fb_complexity := None;
     fb_test_id := None; fb_confidence := None; fb_tool := Some "ai" |}.

(** A helper whose request to the service fails for the file "a.py" (a
    time-out, say) and is answered for every other file. *)
Definition helper_failing_on_a : AIHelper.t :=
  {| AIHelper.enabled := true;
     AIHelper._prepare_context := λ file_path _, file_path;
     AIHelper._call_openai := λ context,
       if decide (context = "a.py") then Raise (Exception "Request timed out")
       else Ok "Looks fine.";
     AIHelper._parse_ai_response := λ response issues,
       Ok [ai_item (default "" (head issues ≫= file))
                   ("AI Feedback: " +:+ response +:+ "...")] |}.

(** What [Analyzer._run_flake8] reports for the flake8 line
    [a.py:3:1: W293 blank line contains whitespace]. *)
Definition flake8_W293 : Issue :=
  {| file := Some "a.py"; line := Some 3%Z;
     severity := Some (Analyzer._get_severity_from_code "W293");
     category := Some "style"; tool := Some "flake8";
     message := Some "blank line contains whitespace";
     code := Some "W293"; complexity := None; function := None;
     test_id := None; confidence := None |}.

End Examples.

(** ** core/analyzer.py: the analysis run *)

Module Analysis.

(** A diff record of the fetched pull request: the keys [analyze] reads. *)
Record Diff := {
  diff_file : option string;
  diff_changes : option string
}.

(** An analysis tool: called with the file path and the changes, it returns
    the issues it found or raises. *)
Definition tool_func : Type := string → string → result (list Issue).

(** An [Analyzer] object: the dict [analysis_tools], in insertion order.
    The tools of the repository run external programs; the run is modelled
    for any tools. *)
Record Analyzer := {
  analysis_tools : list (string * tool_func)
}.

(** [d[k]] on a record of the input: [KeyError] when the key is absent. *)
Definition item {V} (field : option V) (k : string) : result V :=
  match field with
  | Some v => Ok v
  | None => Raise (KeyError k)
  end.

Section Analyze.

(** [repr] of a string, a function of the Python runtime: [str(e)] of a
    [KeyError] is the [repr] of its key. *)
Variable repr : string → string.

(** [str(e)] *)
Definition str_exn (e : exn) : string :=
  match e with
  | KeyError key => repr key
  | Exception msg => msg
  end.

(** The issue [analyze] appends when a tool raises. *)
Definition analysis_error (file_path tool_name : string) (e : exn) : Issue :=
  {| file := Some file_path; line := Some 0%Z; severity := Some "error";
     category := Some "analysis_error"; tool := Some tool_name;
     message := Some ("Analysis failed: " +:+ str_exn e);
     code := None; complexity := None; function := None; test_id := None;
     confidence := None |}.

(** The body of the inner loop of [analyze]: one tool on one file. *)
Definition run_tool (file_path changes : string) (all_issues : list Issue)
    (entry : string * tool_func) : list Issue :=
  let '(tool_name, tool_func) := entry in
  match tool_func file_path changes with
  | Ok issues => all_issues ++ issues
  | Raise e => all_issues ++ [analysis_error file_path tool_name e]
  end.

(** The body of the outer loop of [analyze]: one diff. *)
Definition analyze_diff (self : Analyzer) (all_issues : list Issue)
    (diff : Diff) : result (list Issue) :=
  file_path ← item (diff_file diff) "file";
  changes ← item (diff_changes diff) "changes";
  Ok (foldl (run_tool file_path changes) all_issues (analysis_tools self)).

(** [Analyzer.analyze] *)
Definition analyze (self : Analyzer) (diffs : list Diff)
  : result (list Issue) :=
  all_issues ← for_each (analyze_diff self) [] diffs;
  Ok (Analyzer._deduplicate_issues all_issues).

End Analyze.

End Analysis.

(** ** main.py *)

Module Main.




End Main.

(** ** Notions used to state further properties *)

Module Derived.

(** The distinct elements of a list, in the order of their first
    occurrence. *)
Definition first_seen (l : list string) : list string :=
  foldl (λ seen x, if decide (x ∈ seen) then seen else seen ++ [x]) [] l.

(** The number of issues whose field [f] reads [v]. *)
Definition count_where (f : Issue → string) (v : string)
    (issues : list Issue) : nat :=
  length (filter (λ i, f i = v) issues).

(** What a counter dict holds for a key that was counted [n] times. *)
Definition counted (n : nat) : option nat :=
  if decide (n = 0) then None else Some n.

(** The grades from the worst to the best. *)
Definition grade_rank (grade : string) : nat :=
  default 0
    (fst <$> list_find (λ g, g = grade)
       ["F"; "D"; "C-"; "C"; "C+"; "B-"; "B"; "B+"; "A-"; "A"; "A+"]).

(** All recommendations, in the order [_generate_recommendations] appends
    them. *)
Definition all_recommendations : list string :=
  [Scorer.rec_security; Scorer.rec_errors; Scorer.rec_complexity;
   Scorer.rec_style; Scorer.rec_split; Scorer.rec_review; Scorer.rec_scans;
   Scorer.rec_ci].

(** The severity a template gives to an issue that has none. *)
Definition default_severity (tool : string) : string :=
  if decide (tool = "flake8") then "info"
  else if decide (tool = "bandit") then "high"
  else if decide (tool = "radon") then "medium"
  else if decide (tool = "custom") then "low"
  else "info".

(** The codes that have a message in the style table. *)
Definition style_codes : list string :=
  ["E501"; "E302"; "E305"; "W293"; "E111"; "E112"].

(** The file groups of [generate], and the feedback of one group. *)
Definition file_groups (issues : list Issue) : list (string * list Issue) :=
  foldl (λ issues_by_file issue,
           group_append issues_by_file (default "unknown" (file issue)) issue)
        [] issues.

Definition group_feedback (self : Feedback.FeedbackGenerator)
    (entry : string * list Issue) : list FeedbackItem :=
  match Feedback.use_ai self, Feedback.ai_helper self with
  | true, Some generate_feedback =>
      match generate_feedback entry.1 entry.2 with
      | Ok ai_feedback => ai_feedback
      | Raise _ => Feedback._generate_template_feedback entry.2
      end
  | _, _ => Feedback._generate_template_feedback entry.2
  end.

(** A diff that holds the two keys [analyze] indexes, and the key whose
    lookup raises on a diff that does not. *)
Definition well_formed (diff : Analysis.Diff) : Prop :=
  is_Some (Analysis.diff_file diff) ∧ is_Some (Analysis.diff_changes diff).

Definition missing_key (diff : Analysis.Diff) : option string :=
  match Analysis.diff_file diff, Analysis.diff_changes diff with
  | None, _ => Some "file"
  | Some _, None => Some "changes"
  | Some _, Some _ => None
  end.

(** What one tool adds to [all_issues] on one file, what the tools add for
    one diff, and what they add for all diffs. *)
Definition tool_output (repr : string → string) (file_path changes : string)
    (entry : string * Analysis.tool_func) : list Issue :=
  match entry.2 file_path changes with
  | Ok issues => issues
  | Raise e => [Analysis.analysis_error repr file_path entry.1 e]
  end.

Definition diff_output (repr : string → string) (self : Analysis.Analyzer)
    (diff : Analysis.Diff) : list Issue :=
  match Analysis.diff_file diff, Analysis.diff_changes diff with
  | Some file_path, Some changes =>
      concat (tool_output repr file_path changes
                <$> Analysis.analysis_tools self)
  | _, _ => []
  end.

Definition collected (repr : string → string) (self : Analysis.Analyzer)
    (diffs : list Analysis.Diff) : list Issue :=
  concat (diff_output repr self <$> diffs).

End Derived.

(** ** A run of the pipeline *)

Module Pipeline.

(** [repr] on a string without quotes or escapes. *)
Definition repr_plain (s : string) : string := "'" +:+ s +:+ "'".

Definition tool_finds (issues : list Issue) : Analysis.tool_func :=
  λ _ _, Ok issues.

Definition tool_fails (e : exn) : Analysis.tool_func :=
  λ _ _, Raise e.

(** One tool reports a flake8 W code, the next one fails. *)
Definition analyzer_W293 : Analysis.Analyzer :=
  {| Analysis.analysis_tools :=
       [("flake8", tool_finds [Examples.flake8_W293]);
        ("radon", tool_fails (Exception "radon: not found"))] |}.

(** Every tool fails with the same text. *)
Definition analyzer_failing : Analysis.Analyzer :=
  {| Analysis.analysis_tools :=
       [("flake8", tool_fails (Exception "tool missing"));
        ("radon", tool_fails (Exception "tool missing"));
        ("bandit", tool_fails (Exception "tool missing"))] |}.

Definition diff_a : Analysis.Diff :=
  {| Analysis.diff_file := Some "a.py";
     Analysis.diff_changes := Some "+x = 1 " |}.


End Pipeline.

(** * Properties *)

(** Lookup of a symbolic key in a table given by its literal: one case
    for every key of the table and one for the keys it lacks. *)
Ltac table_lookup :=
  simpl;
  repeat (rewrite lookup_insert; case_decide; [subst; simpl|]);
  rewrite ?lookup_empty;
  repeat case_decide; try done; try congruence.

(** ** Deduplication *)

Section Dedup.
Import Analyzer.

Lemma filter_ext_in {A} (P Q : A → Prop) `{!∀ x, Decision (P x)}
    `{!∀ x, Decision (Q x)} (l : list A) :
  (∀ x, x ∈ l → P x ↔ Q x) → filter P l = filter Q l.
Proof.
  induction l as [|a l IH]; intros Hext; [done|].
  rewrite !filter_cons.
  rewrite IH by (intros x Hx; apply Hext; by right).
  pose proof (Hext a (list_elem_of_here _ _)) as Ha.
  destruct (decide (P a)), (decide (Q a)); tauto || done.
Qed.

Lemma omap_ext_in {A B} (f g : A → option B) (l : list A) :
  (∀ x, x ∈ l → f x = g x) → omap f l = omap g l.
Proof.
  induction l as [|a l IH]; intros Hext; [done|]. csimpl.
  rewrite (Hext a) by left. rewrite IH; [done|].
  intros x Hx. apply Hext. by right.
Qed.

Lemma is_first_occurrence_app issues x p :
  p < length issues →
  is_first_occurrence (issues ++ [x]) p = is_first_occurrence issues p.
Proof.
  intros Hp. unfold is_first_occurrence.
  rewrite lookup_app_l by done. rewrite take_app_le by lia. done.
Qed.

Lemma is_first_occurrence_last issues x :
  is_first_occurrence (issues ++ [x]) (length issues)
  = bool_decide (key_of x ∉ key_of <$> issues).
Proof.
  unfold is_first_occurrence.
  rewrite list_lookup_middle by done. by rewrite take_app_length.
Qed.

(** The first occurrences of a list extended by one issue. *)
Lemma first_occurrences_snoc issues x :
  first_occurrences (issues ++ [x])
  = first_occurrences issues
    ++ (if decide (key_of x ∉ key_of <$> issues) then [x] else []).
Proof.
  unfold first_occurrences.
  rewrite length_app, seq_app, filter_app, omap_app. simpl. f_equal.
  - rewrite (filter_ext_in _ (λ p, is_first_occurrence issues p = true)).
    + apply omap_ext_in. intros p Hp.
      apply list_elem_of_filter in Hp as [_ Hp].
      apply elem_of_seq in Hp. apply lookup_app_l. lia.
    + intros p Hp. apply elem_of_seq in Hp.
      rewrite is_first_occurrence_app by lia. done.
  - rewrite filter_cons, filter_nil, is_first_occurrence_last.
    destruct (decide (key_of x ∉ key_of <$> issues)) as [Hx|Hx].
    + rewrite bool_decide_eq_true_2 by done. rewrite decide_True by done.
      csimpl. by rewrite list_lookup_middle.
    + rewrite bool_decide_eq_false_2 by done. rewrite decide_False by done.
      done.
Qed.

(** The loop invariant of [_deduplicate_issues]: after a prefix has been
    read, [seen] holds the keys of the prefix and [unique_issues] its first
    occurrences. *)
Lemma dedup_invariant issues :
  foldl dedup_step (∅, []) issues
  = (list_to_set (key_of <$> issues), first_occurrences issues).
Proof.
  induction issues as [|x issues IH] using rev_ind; [done|].
  rewrite foldl_snoc, IH. unfold dedup_step.
  rewrite first_occurrences_snoc, fmap_app, list_to_set_app_L. simpl.
  destruct (decide (key_of x ∉ list_to_set (key_of <$> issues)))
    as [Hx|Hx]; rewrite elem_of_list_to_set in Hx.
  - rewrite decide_True by done. f_equal.
    by rewrite union_empty_r_L, (comm_L (∪)).
  - rewrite decide_False by done. rewrite app_nil_r. f_equal.
    apply dec_stable in Hx. rewrite union_empty_r_L.
    symmetry. rewrite (comm_L (∪)). apply subseteq_union_1_L.
    apply singleton_subseteq_l. by apply elem_of_list_to_set.
Qed.


Lemma first_occurrences_keys issues k :
  k ∈ key_of <$> first_occurrences issues ↔ k ∈ key_of <$> issues.
Proof.
  induction issues as [|x issues IH] using rev_ind; [done|].
  rewrite first_occurrences_snoc, !fmap_app, !elem_of_app, IH.
  destruct (decide (key_of x ∉ key_of <$> issues)) as [Hx|Hx]; [done|].
  apply dec_stable in Hx. simpl. rewrite elem_of_nil, list_elem_of_singleton.
  split; [tauto|]. intros [? | ->]; auto.
Qed.

Lemma first_occurrences_NoDup issues :
  NoDup (key_of <$> first_occurrences issues).
Proof.
  induction issues as [|x issues IH] using rev_ind; [constructor|].
  rewrite first_occurrences_snoc, fmap_app.
  destruct (decide (key_of x ∉ key_of <$> issues)) as [Hx|Hx]; simpl.
  - apply NoDup_app. split_and!; [done| |apply NoDup_singleton].
    intros k Hk ->%list_elem_of_singleton.
    by apply Hx, first_occurrences_keys.
  - by rewrite app_nil_r.
Qed.

Lemma first_occurrences_sublist issues :
  first_occurrences issues `sublist_of` issues.
Proof.
  induction issues as [|x issues IH] using rev_ind; [constructor|].
  rewrite first_occurrences_snoc. apply sublist_app; [done|].
  destruct (decide _); [done|apply sublist_nil_l].
Qed.



End Dedup.


(** ** The stable sort *)

Section Sorted.
Context {A K : Type} (leb : K → K → bool) (key : A → K).
Context `{!EqDecision K}.
Hypothesis leb_total : ∀ a b, leb a b = true ∨ leb b a = true.
Hypothesis leb_trans : ∀ a b c, leb a b = true → leb b c = true → leb a c = true.

Local Abbreviation leb_key := (λ a b : A, leb (key a) (key b)).
Local Abbreviation le_key := (λ a b : A, leb (key a) (key b) = true).

Lemma insert_by_Permutation x l : Feedback.insert_by leb_key x l ≡ₚ x :: l.
Proof using Type.
  induction l as [|y l IH]; simpl; [done|].
  destruct (leb (key x) (key y)); [done|]. rewrite IH. apply Permutation_swap.
Qed.

Lemma insert_by_StronglySorted x l :
  StronglySorted le_key l →
  StronglySorted le_key (Feedback.insert_by leb_key x l).
Proof using leb_total leb_trans.
  induction 1 as [|y l Hl IH Hy]; simpl.
  - repeat constructor.
  - destruct (leb (key x) (key y)) eqn:Hxy.
    + constructor; [by constructor|]. constructor; [done|].
      eapply Forall_impl; [exact Hy|]. intros z Hz. by eapply leb_trans.
    + constructor; [done|]. rewrite insert_by_Permutation.
      constructor; [|done].
      destruct (leb_total (key x) (key y)) as [Hle|Hle]; [|done].
      congruence.
Qed.

Lemma insert_by_stable x l k :
  filter (λ a, key a = k) (Feedback.insert_by leb_key x l)
  = filter (λ a, key a = k) (x :: l).
Proof using leb_total.
  induction l as [|y l IH]; simpl; [done|].
  destruct (leb (key x) (key y)) eqn:Hxy; [done|].
  rewrite filter_cons, IH, !filter_cons.
  destruct (decide (key y = k)) as [Hy|Hy], (decide (key x = k)) as [Hx|Hx];
    try done.
  exfalso. rewrite Hx, Hy in Hxy.
  destruct (leb_total k k); congruence.
Qed.

Lemma sorted_Permutation l : Feedback.sorted leb key l ≡ₚ l.
Proof using Type.
  induction l as [|x l IH]; simpl; [done|].
  fold (Feedback.sorted leb key l).
  by rewrite insert_by_Permutation, IH.
Qed.

Lemma sorted_StronglySorted l :
  StronglySorted le_key (Feedback.sorted leb key l).
Proof using leb_total leb_trans.
  induction l as [|x l IH]; simpl; [constructor|].
  by apply insert_by_StronglySorted.
Qed.

Lemma sorted_stable l k :
  filter (λ a, key a = k) (Feedback.sorted leb key l)
  = filter (λ a, key a = k) l.
Proof using leb_total.
  induction l as [|x l IH]; simpl; [done|].
  fold (Feedback.sorted leb key l).
  by rewrite insert_by_stable, !filter_cons, IH.
Qed.

(** A list that is ascending by key is determined by the order in which
    it holds the elements of each key: whatever algorithm a stable sort
    runs, it returns the list [sorted] returns. *)
Lemma stable_sorted_eq l1 l2 :
  (∀ a b, leb a b = true → leb b a = true → a = b) →
  StronglySorted le_key l1 → StronglySorted le_key l2 →
  (∀ k, filter (λ a, key a = k) l1 = filter (λ a, key a = k) l2) →
  l1 = l2.
Proof using leb_total.
  intros Hanti Hs1. revert l2.
  induction Hs1 as [|x l1 Hs1 IH Hx]; intros l2 Hs2 Hf.
  - destruct l2 as [|y l2]; [done|].
    specialize (Hf (key y)). rewrite filter_cons_True in Hf by done. done.
  - destruct Hs2 as [|y l2 Hs2 Hy].
    { specialize (Hf (key x)). rewrite filter_cons_True in Hf by done. done. }
    assert (leb (key x) (key y) = true) as Hxy.
    { assert (y ∈ filter (λ a, key a = key y) (x :: l1))
        as [_ Hin]%list_elem_of_filter
        by (rewrite Hf, filter_cons_True by done; left).
      apply elem_of_cons in Hin as [Heq|Hin].
      - rewrite Heq. by destruct (leb_total (key x) (key x)).
      - by eapply Forall_forall in Hx. }
    assert (leb (key y) (key x) = true) as Hyx.
    { assert (x ∈ filter (λ a, key a = key x) (y :: l2))
        as [_ Hin]%list_elem_of_filter
        by (rewrite <- Hf, filter_cons_True by done; left).
      apply elem_of_cons in Hin as [Heq|Hin].
      - rewrite Heq. by destruct (leb_total (key y) (key y)).
      - by eapply Forall_forall in Hy. }
    pose proof (Hanti _ _ Hxy Hyx) as Hk.
    pose proof (Hf (key x)) as Hfx.
    rewrite !filter_cons_True in Hfx by done. injection Hfx as -> Hfx.
    f_equal. apply IH; [done|]. intros k. specialize (Hf k).
    rewrite !filter_cons in Hf. destruct (decide (key y = k)); [|done].
    by injection Hf.
Qed.

Lemma sorted_unique l l' :
  (∀ a b, leb a b = true → leb b a = true → a = b) →
  StronglySorted le_key l' →
  (∀ k, filter (λ a, key a = k) l' = filter (λ a, key a = k) l) →
  l' = Feedback.sorted leb key l.
Proof using leb_total leb_trans.
  intros Hanti Hs Hf. apply stable_sorted_eq; [done|done| |].
  - apply sorted_StronglySorted.
  - intros k. by rewrite Hf, sorted_stable.
Qed.

End Sorted.

(** ** The order of the sort keys *)

Section KeyOrder.
Import Feedback.

Lemma string_compare_refl s : String.compare s s = Eq.
Proof.
  destruct (String.compare s s) eqn:Hc; [done| |];
    pose proof (String.compare_antisym s s) as Ha; rewrite Hc in Ha; done.
Qed.

Lemma string_compare_lt_trans s1 s2 s3 :
  String.compare s1 s2 = Lt → String.compare s2 s3 = Lt →
  String.compare s1 s3 = Lt.
Proof.
  intros H12 H23.
  exact (@StrictOrder_Transitive _ _ OrdersEx.String_as_OT.lt_strorder
           s1 s2 s3 H12 H23).
Qed.

Lemma string_compare_gt_lt s1 s2 :
  String.compare s1 s2 = Gt ↔ String.compare s2 s1 = Lt.
Proof.
  rewrite (String.compare_antisym s2 s1).
  destruct (String.compare s1 s2); simpl; split; congruence.
Qed.

(** Strings are compared character by character, a proper prefix being
    smaller. *)
Lemma string_compare_lexicographic a s b t :
  String.compare (String a s) (String b t)
  = match Ascii.compare a b with
    | Eq => String.compare s t
    | c => c
    end
  ∧ String.compare "" (String b t) = Lt
  ∧ String.compare (String a s) "" = Gt
  ∧ String.compare "" "" = Eq.
Proof. done. Qed.

(** The order on keys is the lexicographic one. *)
Lemma key_leb_spec r1 c1 l1 r2 c2 l2 :
  key_leb (r1, c1, l1) (r2, c2, l2) = true ↔
  r1 < r2 ∨ (r1 = r2 ∧ (String.compare c1 c2 = Lt
                        ∨ (c1 = c2 ∧ (l1 ≤ l2)%Z))).
Proof.
  unfold key_leb.
  destruct (Nat.compare_spec r1 r2) as [Hr|Hr|Hr].
  - destruct (String.compare c1 c2) eqn:Hc.
    + apply String.compare_eq_iff in Hc. rewrite Z.leb_le.
      split; [by auto|]. intros [?|[_ [?|[_ ?]]]]; [lia|done|done].
    + split; [by auto|done].
    + split; [done|]. intros [?|[_ [?|[-> _]]]]; [lia|done|].
      by rewrite string_compare_refl in Hc.
  - split; [by auto|done].
  - split; [done|]. intros [?|[? _]]; lia.
Qed.

Lemma key_leb_total a b : key_leb a b = true ∨ key_leb b a = true.
Proof.
  destruct a as [[r1 c1] l1], b as [[r2 c2] l2]. rewrite !key_leb_spec.
  destruct (Nat.lt_total r1 r2) as [?|[->|?]]; [by auto| |by auto].
  destruct (String.compare c1 c2) eqn:Hc.
  - apply String.compare_eq_iff in Hc as ->.
    destruct (Z.le_ge_cases l1 l2); [left|right]; right; by auto.
  - left; right; by auto.
  - apply string_compare_gt_lt in Hc. right; right; by auto.
Qed.

Lemma key_leb_trans a b c :
  key_leb a b = true → key_leb b c = true → key_leb a c = true.
Proof.
  destruct a as [[r1 c1] l1], b as [[r2 c2] l2], c as [[r3 c3] l3].
  rewrite !key_leb_spec.
  intros [?|[-> H12]] [?|[-> H23]]; [left; lia|by left|by left|].
  right. split; [done|].
  destruct H12 as [H12|[-> H12]], H23 as [H23|[-> H23]].
  - left. by eapply string_compare_lt_trans.
  - by left.
  - by left.
  - right. split; [done|lia].
Qed.

Lemma key_leb_antisym a b :
  key_leb a b = true → key_leb b a = true → a = b.
Proof.
  destruct a as [[r1 c1] l1], b as [[r2 c2] l2]. rewrite !key_leb_spec.
  intros [?|[-> H12]] [?|[? H21]]; [lia|lia|lia|].
  destruct H12 as [H12|[-> H12]], H21 as [H21|[? H21]].
  - apply string_compare_gt_lt in H21. congruence.
  - subst. by rewrite string_compare_refl in H12.
  - by rewrite string_compare_refl in H21.
  - repeat f_equal. lia.
Qed.

(** The rank of a severity. *)
Lemma severity_rank s :
  default 5 (severity_order !! s)
  = if decide (s = "error") then 0
    else if decide (s = "high") then 1
    else if decide (s = "medium") then 2
    else if decide (s = "low") then 3
    else if decide (s = "info") then 4
    else 5.
Proof. unfold severity_order. table_lookup. Qed.

End KeyOrder.

(** C8. [_prioritize_feedback] returns its input reordered: the result is a
    permutation of the input, ascending for the key
    [(severityRank, category, line)] compared as a tuple (rank first, then
    the category as a string, then the line as a number), where the rank is
    0 for error, 1 for high, 2 for medium, 3 for low, 4 for info and 5 for
    any other severity; this order on keys is total.  The sort is stable:
    the items of any one key appear in the order they had in the input,
    and the result is the only ascending list of which this is true. *)
Theorem prioritize_feedback_total_order_stable
    (feedback_items : list FeedbackItem) :
  let prioritized := Feedback._prioritize_feedback feedback_items in
  prioritized ≡ₚ feedback_items
  ∧ StronglySorted
      (λ a b, Feedback.key_leb (Feedback.sort_key a) (Feedback.sort_key b)
              = true)
      prioritized
  ∧ (∀ k, filter (λ item, Feedback.sort_key item = k) prioritized
          = filter (λ item, Feedback.sort_key item = k) feedback_items)
  ∧ (∀ item,
       Feedback.sort_key item
       = (let severity := default "info" (fb_severity item) in
          if decide (severity = "error") then 0
          else if decide (severity = "high") then 1
          else if decide (severity = "medium") then 2
          else if decide (severity = "low") then 3
          else if decide (severity = "info") then 4
          else 5,
          default "unknown" (fb_category item),
          default 0%Z (fb_line item)))
  ∧ (∀ r1 c1 l1 r2 c2 l2,
       Feedback.key_leb (r1, c1, l1) (r2, c2, l2) = true ↔
       r1 < r2 ∨ (r1 = r2 ∧ (String.compare c1 c2 = Lt
                             ∨ (c1 = c2 ∧ (l1 ≤ l2)%Z))))
  ∧ (∀ a b, Feedback.key_leb a b = true ∨ Feedback.key_leb b a = true)
  ∧ (∀ a b, Feedback.key_leb a b = true → Feedback.key_leb b a = true →
            a = b)
  ∧ (∀ items,
       StronglySorted
         (λ a b, Feedback.key_leb (Feedback.sort_key a) (Feedback.sort_key b)
                 = true)
         items →
       (∀ k, filter (λ item, Feedback.sort_key item = k) items
             = filter (λ item, Feedback.sort_key item = k) feedback_items) →
       items = prioritized).
Proof.
  unfold Feedback._prioritize_feedback. split_and!.
  - apply sorted_Permutation.
  - apply sorted_StronglySorted;
      [apply key_leb_total | apply key_leb_trans].
  - intros k. apply sorted_stable, key_leb_total.
  - intros item. unfold Feedback.sort_key. by rewrite severity_rank.
  - apply key_leb_spec.
  - apply key_leb_total.
  - apply key_leb_antisym.
  - intros items Hs Hf.
    by apply (sorted_unique Feedback.key_leb Feedback.sort_key
                key_leb_total key_leb_trans _ _ key_leb_antisym).
Qed.

(** ** The scorer on particular inputs *)

(** C9. [score] on the empty sequence returns the fixed result: total score
    100, grade A+, the breakdown that gives 100 to security, quality,
    maintainability and style and holds no other category, the summary
    "No issues found - excellent code quality!", and neither metrics nor
    recommendations. *)
Theorem score_empty_is_perfect :
  Scorer.score []
  = Ok {| Scorer.total_score := 100;
          Scorer.grade := "A+";
          Scorer.breakdown :=
            <["security" := 100%Q]>
              (<["quality" := 100%Q]>
                 (<["maintainability" := 100%Q]>
                    (<["style" := 100%Q]> ∅)));
          Scorer.summary := "No issues found - excellent code quality!";
          Scorer.metrics := None;
          Scorer.recommendations := None |}.
Proof. reflexivity. Qed.

(** C1 (fails on the code).  flake8's code W293 is given the severity
    "warning" by the analyzer; the penalty of such an issue is computed with
    the default 5 and its metrics are counted, but [_generate_summary]
    indexes its five counters with the severity, and [score] ends in
    [KeyError].  Deduplication returns the issue. *)
Theorem score_raises_on_warning_severity :
  severity Examples.flake8_W293 = Some "warning"
  ∧ Qeq (Scorer._calculate_category_penalty "style" [Examples.flake8_W293]) 5
  ∧ Scorer.issues_by_severity
      (Scorer._calculate_metrics [Examples.flake8_W293]) !! "warning"
    = Some 1
  ∧ Scorer.score [Examples.flake8_W293] = Raise (KeyError "warning")
  ∧ Analyzer._deduplicate_issues [Examples.flake8_W293]
    = [Examples.flake8_W293].
Proof. split_and!; by vm_compute. Qed.

(** ** Arithmetic of the scorer *)

Section ScoreArith.
Import Scorer ScoreSpec.
Local Open Scope Q_scope.

#[global] Instance max_proper : Proper (Qeq ==> Qeq ==> Qeq) Py.max.
Proof.
  intros a a' Ha b b' Hb. unfold Py.max.
  destruct (Qlt_le_dec a b), (Qlt_le_dec a' b'); simpl; lra.
Qed.

Lemma max_spec a b : (a < b ∧ Py.max a b == b) ∨ (b <= a ∧ Py.max a b == a).
Proof.
  unfold Py.max. destruct (Qlt_le_dec a b); simpl; [left|right]; split; lra.
Qed.

Lemma max_zero_nonneg x : 0 <= Py.max 0 x.
Proof. destruct (max_spec 0 x) as [[? ->]|[? ->]]; lra. Qed.

Lemma max_zero_mono x y : x <= y → Py.max 0 x <= Py.max 0 y.
Proof.
  intros Hxy.
  destruct (max_spec 0 x) as [[? ->]|[? ->]],
           (max_spec 0 y) as [[? ->]|[? ->]]; lra.
Qed.

#[global] Instance round_half_even_proper : Proper (Qeq ==> eq) round_half_even.
Proof.
  intros x y Hxy. unfold round_half_even.
  rewrite (Qfloor_comp x y Hxy).
  assert (x - inject_Z (Qfloor y) == y - inject_Z (Qfloor y)) as ->
    by (by rewrite Hxy).
  done.
Qed.

#[global] Instance round1_proper : Proper (Qeq ==> eq) round1.
Proof. intros x y Hxy. unfold round1. by rewrite Hxy. Qed.

#[global] Instance ge_proper : Proper (Qeq ==> Qeq ==> eq) ge.
Proof. intros x x' Hx y y' Hy. unfold ge. by rewrite Hx, Hy. Qed.

#[global] Instance calculate_grade_proper : Proper (Qeq ==> eq) _calculate_grade.
Proof. intros x y Hxy. unfold _calculate_grade. by rewrite !Hxy. Qed.

Lemma ge_true x y : ge x y = true ↔ y <= x.
Proof. unfold ge. apply Qle_bool_iff. Qed.

Lemma ge_false x y : ge x y = false ↔ x < y.
Proof.
  unfold ge. destruct (Qle_bool y x) eqn:Hb.
  - apply Qle_bool_iff in Hb. split; [done|lra].
  - split; [|done]. intros _. apply Qnot_le_lt. intros Hle.
    apply Qle_bool_iff in Hle. congruence.
Qed.

(** Sums *)

Lemma sum_cons x xs : sum (x :: xs) = x + sum xs.
Proof. done. Qed.

Lemma sum_app xs ys : sum (xs ++ ys) == sum xs + sum ys.
Proof.
  induction xs as [|x xs IH]; [simpl; lra|].
  rewrite <- app_comm_cons, !sum_cons, IH. lra.
Qed.


Lemma sum_nonneg {A} (f : A → Q) (l : list A) :
  (∀ x, x ∈ l → 0 <= f x) → 0 <= sum (f <$> l).
Proof.
  induction l as [|a l IH]; intros Hf; [simpl; lra|].
  rewrite fmap_cons, sum_cons.
  assert (0 <= f a) by (apply Hf; left).
  assert (0 <= sum (f <$> l)) by (apply IH; intros x Hx; apply Hf; by right).
  lra.
Qed.

Lemma sum_scale {A} (f : A → Q) (w : Q) (l : list A) :
  sum (f <$> l) * w == sum ((λ x, f x * w) <$> l).
Proof.
  induction l as [|a l IH]; [simpl; lra|].
  rewrite !fmap_cons, !sum_cons, <- IH. lra.
Qed.

(** The tables of the scorer hold the constants of the specification. *)

Lemma severity_penalties_spec s :
  default 5 (severity_penalties !! s) = severityPenalty s.
Proof. unfold severity_penalties, severityPenalty. table_lookup. Qed.

Lemma tool_weights_spec t :
  default 1.0 (tool_weights !! t) = toolWeight t.
Proof. unfold tool_weights, toolWeight. table_lookup. Qed.

Lemma category_weights_spec c :
  default 0.1 (category_weights !! c) == categoryWeight c.
Proof.
  unfold category_weights, categoryWeight. simpl.
  repeat (rewrite lookup_insert; case_decide; [subst; by vm_compute|]).
  rewrite lookup_empty. repeat case_decide; try congruence. by vm_compute.
Qed.

Lemma severityPenalty_bounds s : 2 <= severityPenalty s <= 20.
Proof. unfold severityPenalty. repeat case_decide; lra. Qed.

Lemma toolWeight_bounds t : 0.8 <= toolWeight t <= 1.5.
Proof. unfold toolWeight. repeat case_decide; lra. Qed.

Lemma categoryMultiplier_bounds c : 1 <= categoryMultiplier c <= 1.5.
Proof. unfold categoryMultiplier. repeat case_decide; lra. Qed.

Lemma categoryWeight_bounds c : 0.05 <= categoryWeight c <= 0.3.
Proof. unfold categoryWeight. repeat case_decide; lra. Qed.

Lemma issuePenalty_pos c i : 1.6 <= issuePenalty c i.
Proof.
  unfold issuePenalty.
  pose proof (severityPenalty_bounds (severity_of i)).
  pose proof (toolWeight_bounds (tool_of i)).
  pose proof (categoryMultiplier_bounds c).
  assert (1.6 <= severityPenalty (severity_of i) * toolWeight (tool_of i))
    by nra.
  nra.
Qed.

(** One iteration of the penalty loop adds the penalty of the issue. *)
Lemma penalty_step_spec c p i : penalty_step c p i == p + issuePenalty c i.
Proof.
  unfold penalty_step, issuePenalty, categoryMultiplier.
  rewrite severity_penalties_spec, tool_weights_spec.
  fold (severity_of i) (tool_of i).
  repeat case_decide; ring.
Qed.

Lemma calculate_category_penalty_from p c g :
  foldl (penalty_step c) p g == p + sum (issuePenalty c <$> g).
Proof.
  revert p. induction g as [|i g IH]; intros p; [simpl; lra|].
  rewrite fmap_cons, sum_cons. simpl. rewrite IH, penalty_step_spec. lra.
Qed.

Lemma calculate_category_penalty_spec c g :
  _calculate_category_penalty c g == sum (issuePenalty c <$> g).
Proof.
  unfold _calculate_category_penalty.
  rewrite calculate_category_penalty_from. lra.
Qed.

End ScoreArith.

(** ** Grouping and the loop of [score] *)

Section ScoreLoop.
Import Scorer ScoreSpec.
Local Open Scope Q_scope.

(** The weighted penalty of one issue, and of one group of the dict
    [issues_by_category]. *)
Local Abbreviation weighted i :=
  (issuePenalty (category_of i) i * categoryWeight (category_of i)).
Local Abbreviation group_weighted :=
  (λ e : string * list Issue,
     sum (issuePenalty e.1 <$> e.2) * categoryWeight e.1).

Lemma group_issues_snoc issues x :
  _group_issues_by_category (issues ++ [x])
  = group_append (_group_issues_by_category issues) (category_of x) x.
Proof. unfold _group_issues_by_category. by rewrite foldl_snoc. Qed.

(** *** Keys and entries of the grouping *)

Lemma dict_get_None {V} (d : list (string * V)) k :
  dict_get d k = None ↔ k ∉ d.*1.
Proof.
  induction d as [|[k' v] d IH]; cbn [dict_get].
  - split; [intros _; apply not_elem_of_nil|done].
  - rewrite fmap_cons, not_elem_of_cons. cbn [fst].
    case_decide; [split; [done|tauto]|].
    rewrite IH. tauto.
Qed.

Lemma group_append_keys {V} (d : list (string * list V)) k x :
  (group_append d k x).*1 = if decide (k ∈ d.*1) then d.*1 else d.*1 ++ [k].
Proof.
  induction d as [|[k' v] d IH]; cbn [group_append].
  - done.
  - rewrite fmap_cons. cbn [fst].
    destruct (decide (k = k')) as [->|Hne].
    + rewrite decide_True; [done|left].
    + rewrite fmap_cons, IH. cbn [fst].
      destruct (decide (k ∈ d.*1)) as [Hin|Hin].
      * rewrite decide_True; [done|by right].
      * rewrite decide_False; [done|]. rewrite not_elem_of_cons. tauto.
Qed.

Lemma dict_get_group_append {V} (d : list (string * list V)) k x c :
  dict_get (group_append d k x) c
  = if decide (c = k) then Some (default [] (dict_get d k) ++ [x])
    else dict_get d c.
Proof.
  induction d as [|[k' v] d IH]; simpl.
  - repeat case_decide; done || congruence.
  - destruct (decide (k = k')) as [->|Hne]; simpl.
    + repeat case_decide; done || congruence.
    + rewrite IH. repeat case_decide; done || congruence.
Qed.

Lemma group_issues_NoDup issues :
  NoDup (_group_issues_by_category issues).*1.
Proof.
  induction issues as [|x issues IH] using rev_ind; [constructor|].
  rewrite group_issues_snoc, group_append_keys.
  case_decide as Hin; [done|].
  apply NoDup_app. split_and!; [done| |apply NoDup_singleton].
  intros c Hc ->%list_elem_of_singleton. done.
Qed.

(** The group of a category holds the issues of that category, in input
    order; a category without issues has no group. *)
Lemma dict_get_group_issues issues c :
  dict_get (_group_issues_by_category issues) c
  = match filter (λ i, category_of i = c) issues with
    | [] => None
    | g => Some g
    end.
Proof.
  induction issues as [|x issues IH] using rev_ind; [done|].
  rewrite group_issues_snoc, dict_get_group_append, filter_app, filter_cons,
    filter_nil.
  destruct (decide (c = category_of x)) as [->|Hne].
  - rewrite decide_True by done. rewrite IH.
    destruct (filter _ issues); done.
  - rewrite decide_False by done. by rewrite IH, app_nil_r.
Qed.

(** *** The two components of the loop state *)

Lemma score_loop_split (m : gmap string Q) t G :
  foldl score_step (m, t) G
  = (foldl (λ m e, <[e.1 := Py.max 0 (100 - _calculate_category_penalty e.1 e.2)]> m)
           m G,
     foldl (λ t e, t + _calculate_category_penalty e.1 e.2
                       * default 0.1 (category_weights !! e.1)) t G).
Proof.
  revert m t. induction G as [|[c g] G IH]; intros m t; [done|].
  simpl. by rewrite IH.
Qed.

Lemma score_loop_total t G :
  foldl (λ t e, t + _calculate_category_penalty e.1 e.2
                    * default 0.1 (category_weights !! e.1)) t G
  == t + sum (group_weighted <$> G).
Proof.
  revert t. induction G as [|[c g] G IH]; intros t; [simpl; lra|].
  rewrite fmap_cons, sum_cons. simpl. rewrite IH. simpl.
  rewrite calculate_category_penalty_spec, category_weights_spec. lra.
Qed.

Lemma score_loop_breakdown (m : gmap string Q) G c :
  NoDup G.*1 →
  foldl (λ m e, <[e.1 := Py.max 0 (100 - _calculate_category_penalty e.1 e.2)]> m)
        m G !! c
  = match dict_get G c with
    | Some g => Some (Py.max 0 (100 - _calculate_category_penalty c g))
    | None => m !! c
    end.
Proof.
  revert m. induction G as [|[k g] G IH]; intros m Hnd; [done|].
  rewrite fmap_cons in Hnd. apply NoDup_cons in Hnd as [Hk Hnd].
  cbn [fst] in Hk. cbn [foldl dict_get fst snd]. rewrite IH by done.
  destruct (decide (c = k)) as [->|Hne].
  - apply dict_get_None in Hk. rewrite Hk. apply lookup_insert_eq.
  - destruct (dict_get G c); [done|]. by apply lookup_insert_ne.
Qed.

(** *** The total penalty as a sum over the issues *)

Lemma group_append_weighted G x :
  sum (group_weighted <$> group_append G (category_of x) x)
  == sum (group_weighted <$> G) + weighted x.
Proof.
  induction G as [|[k g] G IH]; cbn [group_append].
  - simpl. lra.
  - case_decide as Hk.
    + rewrite !fmap_cons, !sum_cons. cbn [fst snd]. subst k.
      rewrite fmap_app, sum_app, fmap_cons, sum_cons. simpl. lra.
    + rewrite !fmap_cons, !sum_cons, IH. lra.
Qed.

Lemma group_issues_weighted issues :
  sum (group_weighted <$> _group_issues_by_category issues)
  == sum ((λ i, weighted i) <$> issues).
Proof.
  induction issues as [|x issues IH] using rev_ind; [done|].
  rewrite group_issues_snoc, group_append_weighted, IH, fmap_app, sum_app.
  simpl. lra.
Qed.

(** *** The total penalty as a sum over categories *)






(** *** What [score] returns *)

Lemma nonempty_true {A} (l : list A) : nonempty l = true ↔ l ≠ [].
Proof. by destruct l. Qed.

(** The result of [score] on a non-empty input, field by field, from the
    final state of its loop. *)
Lemma score_nonempty issues r :
  issues ≠ [] → score issues = Ok r →
  let st := foldl score_step (∅, 0) (_group_issues_by_category issues) in
  let final_score := Py.max 0 (100 - st.2) in
  total_score r = round1 final_score
  ∧ grade r = _calculate_grade final_score
  ∧ breakdown r = st.1
  ∧ _generate_summary issues final_score st.1 = Ok (summary r)
  ∧ metrics r = Some (_calculate_metrics issues)
  ∧ recommendations r = Some (_generate_recommendations issues st.1).
Proof.
  intros Hne%nonempty_true. unfold score. rewrite Hne. cbn [negb].
  destruct (foldl score_step _ _) as [category_scores total_penalty].
  cbn [fst snd]. unfold mbind, result_bind.
  destruct (_generate_summary _ _ _) as [s|e]; [|done].
  intros [= <-]. done.
Qed.

Lemma score_final_state issues :
  (foldl score_step (∅, 0) (_group_issues_by_category issues)).2
  == sum ((λ i, weighted i) <$> issues).
Proof.
  rewrite score_loop_split. cbn [snd].
  rewrite score_loop_total, group_issues_weighted. lra.
Qed.

Lemma score_breakdown_state issues c :
  (foldl score_step (∅, 0) (_group_issues_by_category issues)).1 !! c
  = match filter (λ i, category_of i = c) issues with
    | [] => None
    | g => Some (Py.max 0 (100 - _calculate_category_penalty c g))
    end.
Proof.
  rewrite score_loop_split. cbn [fst].
  rewrite score_loop_breakdown by apply group_issues_NoDup.
  rewrite dict_get_group_issues. by destruct (filter _ issues).
Qed.

(** *** When the summary, and with it [score], returns *)

Lemma count_severity_eq d x :
  count_severity d x
  = match d !! severity_of x with
    | Some n => Ok (<[severity_of x := S n]> d)
    | None => Raise (KeyError (severity_of x))
    end.
Proof. done. Qed.

Lemma for_each_incr_item_ok (d : gmap string nat) issues :
  (∀ i, i ∈ issues → is_Some (d !! severity_of i)) →
  ∃ d', for_each count_severity d issues = Ok d'.
Proof.
  revert d. induction issues as [|x issues IH]; intros d Hd; [by eexists|].
  cbn [for_each]. destruct (Hd x) as [n Hn]; [left|].
  rewrite count_severity_eq, Hn.
  cbn. apply IH. intros i Hi.
  destruct (decide (severity_of i = severity_of x)) as [->|Hne].
  - rewrite lookup_insert_eq. by eexists.
  - rewrite lookup_insert_ne by done. apply Hd. by right.
Qed.

Lemma for_each_incr_item_raise (d : gmap string nat) issues :
  (∃ i, i ∈ issues ∧ d !! severity_of i = None) →
  ∃ k, d !! k = None ∧ for_each count_severity d issues = Raise (KeyError k).
Proof.
  revert d. induction issues as [|x issues IH]; intros d (i & Hi & Hnone).
  - by apply elem_of_nil in Hi.
  - cbn [for_each]. rewrite count_severity_eq.
    destruct (d !! severity_of x) as [n|] eqn:Hx; [|by eexists].
    cbn. apply elem_of_cons in Hi as [->|Hi]; [congruence|].
    destruct (IH (<[severity_of x := S n]> d)) as (k & Hk & ->).
    + exists i. split; [done|]. rewrite lookup_insert_ne; [done|].
      intros Heq. congruence.
    + exists k. split; [|done].
      apply lookup_insert_None in Hk. tauto.
Qed.

Lemma recognised_counter s :
  is_Some ((list_to_map [("error", 0); ("high", 0); ("medium", 0);
                         ("low", 0); ("info", 0)]%nat : gmap string nat)
           !! s)
  ↔ recognised s.
Proof.
  unfold recognised. rewrite !elem_of_cons, elem_of_nil. simpl.
  repeat (rewrite lookup_insert; case_decide;
          [subst; split; [tauto|by eexists]|]).
  rewrite lookup_empty. split; [by intros [? ?]|]. intros H'.
  repeat destruct H' as [H'|H']; done || congruence.
Qed.

(** [score] returns on every input whose severities all have a counter. *)
Lemma score_returns issues :
  (∀ i, i ∈ issues → recognised (severity_of i)) →
  ∃ r, score issues = Ok r.
Proof.
  intros Hrec. unfold score. destruct (nonempty issues); [|by eexists].
  cbn [negb]. destruct (foldl score_step _ _) as [cs tp].
  unfold _generate_summary.
  destruct (for_each_incr_item_ok
              (list_to_map [("error", 0); ("high", 0); ("medium", 0);
                            ("low", 0); ("info", 0)])%nat issues)
    as [d' Hd'].
  - intros i Hi. apply recognised_counter. by apply Hrec.
  - rewrite Hd'. cbn. by eexists.
Qed.

(** [score] raises [KeyError] as soon as one severity has no counter. *)
Lemma score_raises issues i :
  i ∈ issues → ¬ recognised (severity_of i) →
  ∃ k, ¬ recognised k ∧ score issues = Raise (KeyError k).
Proof.
  intros Hi Hrec. unfold score.
  destruct (nonempty issues) eqn:Hne;
    [|destruct issues; [by apply elem_of_nil in Hi|done]].
  cbn [negb]. destruct (foldl score_step _ _) as [cs tp].
  unfold _generate_summary.
  destruct (for_each_incr_item_raise
              (list_to_map [("error", 0); ("high", 0); ("medium", 0);
                            ("low", 0); ("info", 0)])%nat issues)
    as (k & Hk & ->).
  - exists i. split; [done|]. apply eq_None_not_Some.
    by rewrite recognised_counter.
  - exists k. split; [|done]. rewrite <- recognised_counter.
    by apply eq_None_not_Some.
Qed.

End ScoreLoop.

(** ** Rounding *)

Section Rounding.
Local Open Scope Q_scope.

Lemma round_half_even_bounds x :
  x - (1 # 2) <= inject_Z (round_half_even x) <= x + (1 # 2).
Proof.
  unfold round_half_even.
  pose proof (Qfloor_le x) as Hlo. pose proof (Qlt_floor x) as Hhi.
  rewrite inject_Z_plus in Hhi. change (inject_Z 1) with 1 in Hhi.
  destruct (x - inject_Z (Qfloor x) ?= 1 # 2) eqn:Hc.
  - apply Qeq_alt in Hc.
    destruct (Z.even (Qfloor x)); rewrite ?inject_Z_plus;
      change (inject_Z 1) with 1; lra.
  - apply Qlt_alt in Hc. lra.
  - apply Qgt_alt in Hc. rewrite inject_Z_plus.
    change (inject_Z 1) with 1. lra.
Qed.

Lemma round1_bounds x : x - 0.05 <= round1 x <= x + 0.05.
Proof.
  pose proof (round_half_even_bounds (x * 10)) as Hz.
  assert (round1 x == inject_Z (round_half_even (x * 10)) * (1 # 10)) as ->.
  { unfold round1. rewrite Qmake_Qdiv. unfold Qdiv.
    apply Qmult_comp; [done|by vm_compute]. }
  lra.
Qed.

Lemma round1_zero : round1 0 == 0.
Proof. by vm_compute. Qed.

End Rounding.

(** ** The score formula *)

Section ScoreFormula.
Import Scorer ScoreSpec.
Local Open Scope Q_scope.


Lemma score_breakdown issues r c :
  issues ≠ [] → score issues = Ok r →
  (breakdown r !! c = None ↔ ∀ i, i ∈ issues → category_of i ≠ c)
  ∧ (∀ v, breakdown r !! c = Some v →
          v == Py.max 0 (100 - categoryPenalty issues c)).
Proof.
  intros Hne Hr.
  destruct (score_nonempty issues r Hne Hr) as (_ & _ & -> & _).
  rewrite score_breakdown_state. unfold categoryPenalty.
  destruct (filter (λ i, category_of i = c) issues) as [|x g] eqn:Hf.
  - split; [|done]. split; [|done]. intros _ i Hi Hc.
    assert (i ∈ filter (λ i, category_of i = c) issues) as Hin
      by (by apply list_elem_of_filter).
    rewrite Hf in Hin. by apply elem_of_nil in Hin.
  - split.
    + split; [done|]. intros Hno. exfalso.
      assert (x ∈ filter (λ i, category_of i = c) issues) as Hin
        by (rewrite Hf; left).
      apply list_elem_of_filter in Hin as [Hc Hin]. by apply (Hno x).
    + intros v [= <-]. by rewrite calculate_category_penalty_spec.
Qed.

End ScoreFormula.



(** ** Monotonicity *)

Section Monotone.
Import Scorer ScoreSpec.
Local Open Scope Q_scope.

Local Abbreviation weighted i :=
  (issuePenalty (category_of i) i * categoryWeight (category_of i)).

Lemma round1_nonneg x : 0 <= x → 0 <= round1 x.
Proof.
  intros Hx. unfold round1.
  pose proof (round_half_even_bounds (x * 10)) as [Hlo _].
  assert (inject_Z (-1) < inject_Z (round_half_even (x * 10))) as Hz
    by (change (inject_Z (-1)) with (-1); lra).
  rewrite <- Zlt_Qlt in Hz.
  unfold Qle. simpl. lia.
Qed.

(** The total score of any input on which [score] returns. *)
Lemma score_total_sum issues r :
  score issues = Ok r →
  total_score r
  == round1 (Py.max 0 (100 - sum ((λ i, weighted i) <$> issues))).
Proof.
  intros Hr. destruct (decide (issues = [])) as [->|Hne].
  - injection Hr as <-. by vm_compute.
  - destruct (score_nonempty issues r Hne Hr) as (-> & _).
    by rewrite score_final_state.
Qed.

Lemma score_ok_recognised issues r i :
  score issues = Ok r → i ∈ issues → recognised (severity_of i).
Proof.
  intros Hr Hi. unfold recognised.
  destruct (decide (severity_of i
                    ∈ ["error"; "high"; "medium"; "low"; "info"]))
    as [|Hno]; [done|].
  destruct (score_raises issues i Hi Hno) as (k & _ & Hk). congruence.
Qed.

Lemma sum_weighted_insert issues1 issues2 x :
  sum ((λ i, weighted i) <$> issues1 ++ x :: issues2)
  == sum ((λ i, weighted i) <$> issues1 ++ issues2) + weighted x.
Proof. rewrite !fmap_app, fmap_cons, !sum_app, sum_cons. lra. Qed.

Lemma weighted_security_error x :
  severity x = Some "error" → category x = Some "security" →
  7.2 <= weighted x ∧ 24 <= issuePenalty "security" x.
Proof.
  intros Hs Hc. unfold issuePenalty, category_of, severity_of.
  rewrite Hs, Hc. simpl.
  change (severityPenalty "error") with 20.
  change (categoryMultiplier "security") with 1.5.
  change (categoryWeight "security") with 0.30.
  pose proof (toolWeight_bounds (tool_of x)). lra.
Qed.

Lemma total_score_after_insert (P w : Q) :
  7.2 <= w →
  let t := round1 (Py.max 0 (100 - P)) in
  let t' := round1 (Py.max 0 (100 - (P + w))) in
  (t == 0 → t' == 0) ∧ (¬ t == 0 → t' < t).
Proof.
  intros Hw t t'.
  pose proof (round1_bounds (Py.max 0 (100 - P))) as Hb.
  pose proof (round1_bounds (Py.max 0 (100 - (P + w)))) as Hb'.
  pose proof (round1_nonneg _ (max_zero_nonneg (100 - P))) as Hpos.
  fold t in Hb, Hpos. fold t' in Hb'.
  destruct (max_spec 0 (100 - P)) as [[HP Hm]|[HP Hm]],
           (max_spec 0 (100 - (P + w))) as [[HP' Hm']|[HP' Hm']];
    try (assert (t' = round1 0) as Ht'
           by (unfold t'; by rewrite Hm');
         rewrite Ht', round1_zero);
    split; intros Ht; lra.
Qed.

Lemma breakdown_security_after_insert issues1 issues2 x r r' :
  category x = Some "security" →
  score (issues1 ++ issues2) = Ok r →
  score (issues1 ++ x :: issues2) = Ok r' →
  ∃ v', breakdown r' !! "security" = Some v'
        ∧ ∀ v, breakdown r !! "security" = Some v → v' <= v.
Proof.
  intros Hc Hr Hr'.
  assert (issues1 ++ x :: issues2 ≠ []) as Hne' by (by destruct issues1).
  destruct (score_nonempty _ r' Hne' Hr') as (_ & _ & -> & _).
  rewrite score_breakdown_state, filter_app, filter_cons.
  rewrite decide_True by (unfold category_of; by rewrite Hc).
  set (g1 := filter (λ i, category_of i = "security") issues1).
  set (g2 := filter (λ i, category_of i = "security") issues2).
  destruct (g1 ++ x :: g2) as [|y g] eqn:Hg; [by destruct g1|].
  rewrite <- Hg. clear y g Hg.
  eexists; split; [done|]. intros v Hv.
  rewrite calculate_category_penalty_spec, fmap_app, fmap_cons, sum_app,
    sum_cons.
  pose proof (issuePenalty_pos "security" x) as Hx.
  assert (0 <= sum (issuePenalty "security" <$> g1)) as H1
    by (apply sum_nonneg; intros; pose proof (issuePenalty_pos "security" x0);
        lra).
  assert (0 <= sum (issuePenalty "security" <$> g2)) as H2
    by (apply sum_nonneg; intros; pose proof (issuePenalty_pos "security" x0);
        lra).
  destruct (decide (issues1 ++ issues2 = [])) as [Hnil|Hne].
  - rewrite Hnil in Hr. injection Hr as <-. vm_compute in Hv.
    injection Hv as <-. 
    destruct (max_spec 0 (100 - (sum (issuePenalty "security" <$> g1)
                + (issuePenalty "security" x
                   + sum (issuePenalty "security" <$> g2)))))
      as [[? ->]|[? ->]]; lra.
  - destruct (score_nonempty _ r Hne Hr) as (_ & _ & Hb & _).
    rewrite Hb, score_breakdown_state, filter_app in Hv. fold g1 g2 in Hv.
    destruct (g1 ++ g2) eqn:Hg; [done|]. rewrite <- Hg in Hv.
    injection Hv as <-.
    rewrite calculate_category_penalty_spec, fmap_app, sum_app.
    apply max_zero_mono. lra.
Qed.

End Monotone.

(** C6. Adding one issue of severity "error" and category "security", at
    any place of an issue sequence on which [score] returns, gives a
    sequence on which [score] returns too; its total score is 0 if the
    total score was 0 and strictly smaller otherwise, and its security
    breakdown is at most the security breakdown there was. *)
Theorem score_monotone_security_error
    (issues1 issues2 : list Issue) (x : Issue) (r : Scorer.ScoreResult) :
  severity x = Some "error" → category x = Some "security" →
  Scorer.score (issues1 ++ issues2) = Ok r →
  ∃ r', Scorer.score (issues1 ++ x :: issues2) = Ok r'
        ∧ ((Scorer.total_score r == 0)%Q → (Scorer.total_score r' == 0)%Q)
        ∧ (¬ (Scorer.total_score r == 0)%Q →
           (Scorer.total_score r' < Scorer.total_score r)%Q)
        ∧ ∃ v', Scorer.breakdown r' !! "security" = Some v'
                ∧ ∀ v, Scorer.breakdown r !! "security" = Some v →
                       (v' <= v)%Q.
Proof.
  intros Hs Hc Hr.
  destruct (score_returns (issues1 ++ x :: issues2)) as [r' Hr'].
  { intros i [Hi|[->|Hi]%elem_of_cons]%elem_of_app.
    - apply (score_ok_recognised (issues1 ++ issues2) r); [done|].
      apply elem_of_app; by left.
    - unfold ScoreSpec.severity_of. rewrite Hs. left.
    - apply (score_ok_recognised (issues1 ++ issues2) r); [done|].
      apply elem_of_app; by right. }
  exists r'. split; [done|].
  rewrite (score_total_sum _ _ Hr), (score_total_sum _ _ Hr'),
    sum_weighted_insert.
  destruct (weighted_security_error x Hs Hc) as [Hw _].
  destruct (total_score_after_insert
              (ScoreSpec.sum
                 ((λ i, ScoreSpec.issuePenalty (ScoreSpec.category_of i) i
                        * ScoreSpec.categoryWeight (ScoreSpec.category_of i))%Q
                    <$> issues1 ++ issues2)) _ Hw) as [H0 Hlt].
  split_and!; [done|done|].
  by eapply breakdown_security_after_insert.
Qed.

(** An instance of C6: the security error added to the scenario input. *)
Lemma score_monotone_security_error_witness :
  severity Examples.security_error = Some "error"
  ∧ category Examples.security_error = Some "security"
  ∧ Scorer.score ([Examples.hardcoded_secret] ++ [])
    = Ok Examples.hardcoded_secret_score
  ∧ ∃ r', Scorer.score ([Examples.hardcoded_secret]
                        ++ Examples.security_error :: []) = Ok r'
          ∧ (Scorer.total_score r'
             < Scorer.total_score Examples.hardcoded_secret_score)%Q.
Proof.
  split_and!; [reflexivity|reflexivity|vm_compute; reflexivity|].
  destruct (score_monotone_security_error
              [Examples.hardcoded_secret] [] Examples.security_error
              Examples.hardcoded_secret_score eq_refl eq_refl)
    as (r' & Hr' & _ & Hlt & _); [vm_compute; reflexivity|].
  exists r'. split; [exact Hr'|]. apply Hlt. vm_compute. discriminate.
Defined.

(** ** Grades *)

Section Grades.
Import Scorer ScoreSpec.
Local Open Scope Q_scope.





End Grades.




(** ** Metrics *)

Section MetricsCount.
Import Scorer ScoreSpec.

Lemma metrics_step_files m i :
  acc_files (metrics_step m i)
  = list_to_set (option_list (counted_file i)) ∪ acc_files m.
Proof.
  unfold metrics_step, counted_file, truthy_str. cbn [acc_files].
  destruct (file i) as [f|]; simpl.
  - destruct (decide (f = "")) as [->|Hf]; simpl.
    + by rewrite union_empty_l_L.
    + rewrite (proj2 (String.eqb_neq f "")) by done. simpl.
      by rewrite union_empty_r_L.
  - by rewrite union_empty_l_L.
Qed.

Lemma metrics_step_lines m i :
  acc_lines (metrics_step m i)
  = list_to_set (option_list (counted_line i)) ∪ acc_lines m.
Proof.
  unfold metrics_step, counted_line, truthy_int. cbn [acc_lines].
  destruct (line i) as [n|]; simpl.
  - destruct (decide (n = 0%Z)) as [->|Hn]; simpl.
    + by rewrite union_empty_l_L.
    + rewrite (proj2 (Z.eqb_neq n 0)) by done. simpl.
      by rewrite union_empty_r_L.
  - by rewrite union_empty_l_L.
Qed.

Lemma omap_option_list_cons {A B} (f : A → option B) x l :
  omap f (x :: l) = option_list (f x) ++ omap f l.
Proof. csimpl. by destruct (f x). Qed.

(** The two sets when the loop of [_calculate_metrics] ends. *)
Lemma metrics_loop m issues :
  acc_files (foldl metrics_step m issues)
  = list_to_set (omap counted_file issues) ∪ acc_files m
  ∧ acc_lines (foldl metrics_step m issues)
    = list_to_set (omap counted_line issues) ∪ acc_lines m.
Proof.
  revert m. induction issues as [|i issues IH]; intros m.
  - simpl. by rewrite !union_empty_l_L.
  - cbn [foldl]. destruct (IH (metrics_step m i)) as [-> ->].
    rewrite metrics_step_files, metrics_step_lines, !omap_option_list_cons,
      !list_to_set_app_L.
    split; rewrite (assoc_L (∪)); f_equal; apply (comm_L (∪)).
Qed.

Lemma size_list_to_set_distinct `{Countable A} (l : list A) :
  size (list_to_set l : gset A) = distinct l.
Proof.
  unfold distinct.
  rewrite <- (size_list_to_set (C := gset A) (remove_dups l))
    by apply NoDup_remove_dups.
  f_equal. apply set_eq. intros x.
  by rewrite !elem_of_list_to_set, elem_of_remove_dups.
Qed.

Lemma calculate_metrics_counts issues :
  files_affected (_calculate_metrics issues)
  = distinct (omap counted_file issues)
  ∧ lines_affected (_calculate_metrics issues)
    = distinct (omap counted_line issues).
Proof.
  unfold _calculate_metrics. cbn [files_affected lines_affected].
  destruct (metrics_loop
              {| acc_by_severity := ∅; acc_by_category := ∅;
                 acc_by_tool := ∅; acc_files := ∅; acc_lines := ∅ |}
              issues) as [-> ->].
  cbn [acc_files acc_lines].
  by rewrite !union_empty_r_L, !size_list_to_set_distinct.
Qed.

End MetricsCount.

(** C10. Whenever [score] returns on a non-empty input, the result holds
    metrics; their ['files_affected'] is the number of distinct values of
    the file field over the issues whose file is present and not empty, and
    their ['lines_affected'] the number of distinct values of the line
    field over the issues whose line is present and not zero.  So an issue
    without a line, or with line 0, leaves the count of lines as it is
    without that issue, and an issue without a file, or with an empty file
    name, the count of files. *)
Theorem metrics_affected_counts (issues : list Issue)
    (r : Scorer.ScoreResult) :
  issues ≠ [] → Scorer.score issues = Ok r →
  ∃ m, Scorer.metrics r = Some m
       ∧ Scorer.files_affected m
         = ScoreSpec.distinct (omap ScoreSpec.counted_file issues)
       ∧ Scorer.lines_affected m
         = ScoreSpec.distinct (omap ScoreSpec.counted_line issues)
       ∧ (∀ issues1 x issues2,
            issues = issues1 ++ x :: issues2 →
            line x = Some 0%Z ∨ line x = None →
            Scorer.lines_affected m
            = Scorer.lines_affected
                (Scorer._calculate_metrics (issues1 ++ issues2)))
       ∧ (∀ issues1 x issues2,
            issues = issues1 ++ x :: issues2 →
            file x = Some "" ∨ file x = None →
            Scorer.files_affected m
            = Scorer.files_affected
                (Scorer._calculate_metrics (issues1 ++ issues2))).
Proof.
  intros Hne Hr.
  destruct (score_nonempty issues r Hne Hr) as (_ & _ & _ & _ & Hm & _).
  exists (Scorer._calculate_metrics issues). split; [done|].
  destruct (calculate_metrics_counts issues) as [Hf Hl].
  split_and!; [done|done| |].
  - intros issues1 x issues2 -> Hx.
    destruct (calculate_metrics_counts (issues1 ++ issues2)) as [_ ->].
    rewrite Hl, !omap_app, omap_option_list_cons.
    assert (ScoreSpec.counted_line x = None) as ->; [|done].
    unfold ScoreSpec.counted_line. by destruct Hx as [-> | ->].
  - intros issues1 x issues2 -> Hx.
    destruct (calculate_metrics_counts (issues1 ++ issues2)) as [-> _].
    rewrite Hf, !omap_app, omap_option_list_cons.
    assert (ScoreSpec.counted_file x = None) as ->; [|done].
    unfold ScoreSpec.counted_file. by destruct Hx as [-> | ->].
Qed.

(** An instance of C10: the manifest finding has no line and is not counted
    among the lines. *)
Lemma metrics_affected_counts_witness :
  Examples.two_findings ≠ []
  ∧ Scorer.score Examples.two_findings = Ok Examples.two_findings_score
  ∧ ∃ m, Scorer.metrics Examples.two_findings_score = Some m
         ∧ Scorer.files_affected m = 2 ∧ Scorer.lines_affected m = 1.
Proof.
  split_and!; [done|vm_compute; reflexivity|].
  destruct (metrics_affected_counts Examples.two_findings
              Examples.two_findings_score)
    as (m & Hm & Hf & Hl & _); [done|vm_compute; reflexivity|].
  exists m. split_and!; [exact Hm|rewrite Hf|rewrite Hl]; vm_compute;
    reflexivity.
Defined.

(** ** The scenario of the specification *)

(** C5 (fails on the code): for the tool "bandit-like" the template engine
    takes the generic path, and the message of the one feedback item does
    not start with "Security issue:". *)
Lemma scenario_message_counterexample :
  ∃ item m,
    Feedback.generate Examples.template_generator [Examples.hardcoded_secret]
    = [item]
    ∧ fb_message item = Some m
    ∧ startswith m "Security issue:" = false.
Proof. do 2 eexists. split_and!; vm_compute; reflexivity. Qed.

(** C5, amended.  For the scenario input, [score] returns a total score
    below 100 (93.2), a security breakdown below 100 (77.5) and
    recommendations that hold the security one; the template engine returns
    exactly one feedback item, built by the generic path: its message is
    the message of the issue, unchanged, and its suggestions are the one
    generic suggestion.  When the tool of the same finding is "bandit", the
    message of the one item starts with "Security issue:" and the
    suggestions are the two of hardcoded secrets. *)
Theorem scenario_hardcoded_secret :
  (∃ r v recommendations,
     Scorer.score [Examples.hardcoded_secret] = Ok r
     ∧ (Scorer.total_score r < 100)%Q
     ∧ Scorer.breakdown r !! "security" = Some v ∧ (v < 100)%Q
     ∧ Scorer.recommendations r = Some recommendations
     ∧ Scorer.rec_security ∈ recommendations)
  ∧ (∃ item,
       Feedback.generate Examples.template_generator
         [Examples.hardcoded_secret] = [item]
       ∧ fb_message item = Some "Potential hardcoded secret detected"
       ∧ fb_suggestions item
         = Some ["Review the code for potential improvements"]
       ∧ fb_tool item = Some "bandit-like")
  ∧ (∃ item m suggestions,
       Feedback.generate Examples.template_generator
         [Examples.hardcoded_secret_bandit] = [item]
       ∧ fb_message item = Some m
       ∧ startswith m "Security issue:" = true
       ∧ m = "Security issue: Potential hardcoded secret detected"
       ∧ fb_suggestions item = Some suggestions
       ∧ suggestions
         = ["Use environment variables or secure configuration management";
            "Consider using a secrets management service"]).
Proof.
  split_and!.
  - do 3 eexists. split_and!; try (vm_compute; reflexivity).
    apply list_elem_of_here.
  - eexists. split_and!; vm_compute; reflexivity.
  - do 3 eexists. split_and!; vm_compute; reflexivity.
Qed.

(** ** Feedback from the external generator *)

Section ExternalFeedback.
Import Feedback.

(** The feedback of one file group: from the helper when it is used and
    returns, from the templates otherwise. *)
Lemma generate_step_eq self feedback_items file_path file_issues :
  generate_step self feedback_items (file_path, file_issues)
  = feedback_items
    ++ match use_ai self, ai_helper self with
       | true, Some generate_feedback =>
           match generate_feedback file_path file_issues with
           | Ok ai_feedback => ai_feedback
           | Raise _ => _generate_template_feedback file_issues
           end
       | _, _ => _generate_template_feedback file_issues
       end.
Proof.
  unfold generate_step.
  destruct (use_ai self), (ai_helper self) as [gf|]; try done.
  by destruct (gf file_path file_issues).
Qed.

Lemma group_two_files (ia ib : Issue) (fa fb : string) :
  file ia = Some fa → file ib = Some fb → fa ≠ fb →
  foldl (λ issues_by_file issue,
           group_append issues_by_file (default "unknown" (file issue)) issue)
        [] [ia; ib]
  = [(fa, [ia]); (fb, [ib])].
Proof.
  intros Ha Hb Hne. cbn [foldl group_append]. rewrite Ha, Hb.
  cbn [default group_append]. by rewrite decide_False by done.
Qed.

(** When the [generate_feedback] method of the helper raises for the group
    of one file and returns for the group of another, the first file gets
    its template feedback and the second what the helper returned. *)
Lemma generate_falls_back_when_helper_raises
    (generate_feedback : string → list Issue → result (list FeedbackItem))
    (ia ib : Issue) (e : exn) (items_b : list FeedbackItem) :
  file ia = Some "a.py" → file ib = Some "b.py" →
  generate_feedback "a.py" [ia] = Raise e →
  generate_feedback "b.py" [ib] = Ok items_b →
  generate {| use_ai := true; ai_helper := Some generate_feedback |} [ia; ib]
  = _prioritize_feedback (_generate_template_feedback [ia] ++ items_b).
Proof.
  intros Ha Hb Hra Hrb. unfold generate.
  rewrite (group_two_files ia ib "a.py" "b.py") by done.
  cbn [foldl]. rewrite !generate_step_eq. cbn [use_ai ai_helper].
  by rewrite Hra, Hrb.
Qed.

(** [AIHelper.generate_feedback] never raises. *)
Lemma helper_generate_feedback_returns (h : AIHelper.t) file_path issues :
  ∃ items, AIHelper.generate_feedback h file_path issues = Ok items.
Proof.
  unfold AIHelper.generate_feedback.
  destruct (AIHelper.enabled h); cbn [negb]; [|by eexists].
  destruct (_ ≫= _); by eexists.
Qed.

End ExternalFeedback.

(** C2 (fails on the code).  With the helper of the repository, a request
    to the external service that fails for the group of "a.py" makes
    [AIHelper.generate_feedback] return the empty list for that group, not
    raise: when the request for "b.py" is answered, the feedback is what
    the helper returned for "b.py" and nothing else; no template feedback
    for "a.py" is in it. *)
Theorem ai_failure_leaves_file_without_feedback
    (h : AIHelper.t) (openai_api_key : string) (ia ib : Issue) (e : exn)
    (response : string) (items_b : list FeedbackItem) :
  openai_api_key ≠ "" →
  file ia = Some "a.py" → file ib = Some "b.py" →
  AIHelper.enabled h = true →
  AIHelper._call_openai h (AIHelper._prepare_context h "a.py" [ia])
  = Raise e →
  AIHelper._call_openai h (AIHelper._prepare_context h "b.py" [ib])
  = Ok response →
  AIHelper._parse_ai_response h response [ib] = Ok items_b →
  AIHelper.generate_feedback h "a.py" [ia] = Ok []
  ∧ AIHelper.generate_feedback h "b.py" [ib] = Ok items_b
  ∧ Feedback.generate (Feedback.new true (Some openai_api_key) h) [ia; ib]
    = Feedback._prioritize_feedback items_b.
Proof.
  intros Hkey Ha Hb Hen Hcall_a Hcall_b Hparse.
  assert (AIHelper.generate_feedback h "a.py" [ia] = Ok []) as Hga.
  { unfold AIHelper.generate_feedback. rewrite Hen, Hcall_a. done. }
  assert (AIHelper.generate_feedback h "b.py" [ib] = Ok items_b) as Hgb.
  { unfold AIHelper.generate_feedback. rewrite Hen, Hcall_b. cbn.
    by rewrite Hparse. }
  split_and!; [done|done|].
  unfold Feedback.generate, Feedback.new.
  rewrite (group_two_files ia ib "a.py" "b.py") by done.
  assert (truthy_str (Some openai_api_key) = true) as ->.
  { unfold truthy_str. by rewrite (proj2 (String.eqb_neq _ _)). }
  cbn [foldl andb]. rewrite !generate_step_eq.
  cbn [Feedback.use_ai Feedback.ai_helper]. by rewrite Hga, Hgb.
Qed.

(** An instance of C2: the request times out for "a.py"; the feedback holds
    the item of the helper for "b.py" and not the template feedback of the
    issue of "a.py". *)
Lemma ai_failure_leaves_file_without_feedback_witness :
  let generator :=
    Feedback.new true (Some "sk-test") Examples.helper_failing_on_a in
  Feedback.generate generator [Examples.issue_a; Examples.issue_b]
  = [Examples.ai_item "b.py" "AI Feedback: Looks fine...."]
  ∧ Feedback.template_feedback Examples.issue_a
    ∉ Feedback.generate generator [Examples.issue_a; Examples.issue_b].
Proof.
  destruct (ai_failure_leaves_file_without_feedback
              Examples.helper_failing_on_a "sk-test"
              Examples.issue_a Examples.issue_b
              (Exception "Request timed out") "Looks fine."
              [Examples.ai_item "b.py" "AI Feedback: Looks fine...."])
    as (_ & _ & Hgen); [done|reflexivity|reflexivity|reflexivity|reflexivity
                        |reflexivity|reflexivity|].
  cbn zeta. rewrite Hgen. split; [reflexivity|].
  intros Hin. apply list_elem_of_singleton in Hin. discriminate Hin.
Defined.

(** * Further properties *)

(** ** Rounding is monotone *)

Section RoundingMono.
Local Open Scope Q_scope.

Lemma round_half_even_floor x :
  (Qfloor x ≤ round_half_even x ≤ Qfloor x + 1)%Z.
Proof.
  unfold round_half_even.
  destruct (x - inject_Z (Qfloor x) ?= 1 # 2); [|lia|lia].
  destruct (Z.even (Qfloor x)); lia.
Qed.

Lemma round_half_even_mono x y :
  x <= y → (round_half_even x ≤ round_half_even y)%Z.
Proof.
  intros Hxy. pose proof (Qfloor_resp_le x y Hxy) as Hf.
  destruct (decide (Qfloor x = Qfloor y)) as [Heq|Hne].
  - unfold round_half_even. rewrite Heq.
    destruct (x - inject_Z (Qfloor y) ?= 1 # 2) eqn:Hx,
             (y - inject_Z (Qfloor y) ?= 1 # 2) eqn:Hy;
      rewrite <- ?Qeq_alt, <- ?Qlt_alt, <- ?Qgt_alt in Hx;
      rewrite <- ?Qeq_alt, <- ?Qlt_alt, <- ?Qgt_alt in Hy;
      try (exfalso; lra); destruct (Z.even (Qfloor y)); lia.
  - pose proof (round_half_even_floor x). pose proof (round_half_even_floor y).
    lia.
Qed.

Lemma round1_mono x y : x <= y → round1 x <= round1 y.
Proof.
  intros Hxy. unfold round1, Qle. cbn [Qnum Qden].
  assert (x * 10 <= y * 10) as Hm by lra.
  pose proof (round_half_even_mono _ _ Hm). lia.
Qed.

End RoundingMono.

(** ** Bounds of the score *)

Section ScoreBounds.
Import Scorer ScoreSpec.
Local Open Scope Q_scope.

Local Abbreviation weighted i :=
  (issuePenalty (category_of i) i * categoryWeight (category_of i)).
Local Abbreviation count l := (inject_Z (Z.of_nat (length l))).

Lemma issuePenalty_le c i : issuePenalty c i <= 45.
Proof.
  unfold issuePenalty.
  pose proof (severityPenalty_bounds (severity_of i)).
  pose proof (toolWeight_bounds (tool_of i)).
  pose proof (categoryMultiplier_bounds c).
  assert (severityPenalty (severity_of i) * toolWeight (tool_of i) <= 30)
    by nra.
  nra.
Qed.

Lemma weighted_bounds i : 0.08 <= weighted i <= 13.5.
Proof.
  pose proof (issuePenalty_pos (category_of i) i).
  pose proof (issuePenalty_le (category_of i) i).
  pose proof (categoryWeight_bounds (category_of i)).
  split; nra.
Qed.

Lemma count_cons {A} (x : A) l : count (x :: l) == count l + 1.
Proof.
  cbn [length]. rewrite Nat2Z.inj_succ. unfold Z.succ.
  by rewrite inject_Z_plus.
Qed.

Lemma sum_bounds {A} (f : A → Q) (a b : Q) (l : list A) :
  (∀ x, x ∈ l → a <= f x <= b) →
  a * count l <= sum (f <$> l) <= b * count l.
Proof.
  induction l as [|x l IH]; intros Hf.
  - change (a * 0 <= 0 <= b * 0). lra.
  - rewrite fmap_cons, sum_cons, count_cons.
    destruct (Hf x) as [? ?]; [left|].
    destruct IH as [? ?]; [intros y Hy; apply Hf; by right|].
    split; lra.
Qed.

Lemma sum_weighted_bounds issues :
  0.08 * count issues <= sum ((λ i, weighted i) <$> issues)
  <= 13.5 * count issues.
Proof. apply sum_bounds. intros i _. apply weighted_bounds. Qed.

Lemma count_nonneg {A} (l : list A) : 0 <= count l.
Proof.
  change 0 with (inject_Z 0). rewrite <- Zle_Qle. lia.
Qed.

Lemma count_pos {A} (l : list A) : l ≠ [] → 1 <= count l.
Proof.
  intros Hl. change 1 with (inject_Z 1). rewrite <- Zle_Qle.
  destruct l; [done|]. cbn [length]. lia.
Qed.

Lemma sum_weighted_sublist issues' issues :
  issues' `sublist_of` issues →
  sum ((λ i, weighted i) <$> issues') <= sum ((λ i, weighted i) <$> issues).
Proof.
  induction 1 as [|x l1 l2 _ IH|x l1 l2 _ IH].
  - simpl. lra.
  - rewrite !fmap_cons, !sum_cons. lra.
  - rewrite fmap_cons, sum_cons. pose proof (weighted_bounds x). lra.
Qed.

End ScoreBounds.

(** X1. Whenever [score] returns, the total score lies between 0 and 100,
    and so does every score of the breakdown. *)
Theorem score_in_range (issues : list Issue) (r : Scorer.ScoreResult) :
  Scorer.score issues = Ok r →
  (0 <= Scorer.total_score r <= 100)%Q
  ∧ ∀ c v, Scorer.breakdown r !! c = Some v → (0 <= v <= 100)%Q.
Proof.
  intros Hr. split.
  - rewrite (score_total_sum _ _ Hr).
    set (S := ScoreSpec.sum _).
    assert (0 <= S)%Q as HS.
    { pose proof (sum_weighted_bounds issues) as [Hlo _].
      pose proof (count_nonneg issues). fold S in Hlo. lra. }
    assert (0 <= Py.max 0 (100 - S) <= 100)%Q as [Hlo Hhi].
    { destruct (max_spec 0 (100 - S)) as [[? ->]|[? ->]]; lra. }
    apply round1_mono in Hlo, Hhi.
    rewrite round1_zero in Hlo.
    assert (round1 100 == 100)%Q as H100 by (by vm_compute).
    rewrite H100 in Hhi. done.
  - intros c v Hv. destruct (decide (issues = [])) as [->|Hne].
    + injection Hr as <-. cbn in Hv.
      repeat (rewrite lookup_insert in Hv; case_decide;
              [injection Hv as <-; lra|]).
      by rewrite lookup_empty in Hv.
    + destruct (score_breakdown issues r c Hne Hr) as [_ Hb].
      rewrite (Hb v Hv).
      assert (0 <= ScoreSpec.categoryPenalty issues c)%Q as Hp.
      { apply sum_nonneg. intros i _.
        pose proof (issuePenalty_pos c i). lra. }
      destruct (max_spec 0 (100 - ScoreSpec.categoryPenalty issues c))
        as [[? ->]|[? ->]]; lra.
Qed.

(** An instance of X1: the scenario input. *)
Lemma score_in_range_witness :
  Scorer.score [Examples.hardcoded_secret]
  = Ok Examples.hardcoded_secret_score
  ∧ (0 <= Scorer.total_score Examples.hardcoded_secret_score <= 100)%Q.
Proof.
  split; [vm_compute; reflexivity|].
  apply (score_in_range [Examples.hardcoded_secret]).
  vm_compute; reflexivity.
Defined.

(** X2. On a non-empty input on which [score] returns, the total score is
    at most 99.9: only the empty input scores 100.  It is at least 100
    minus 13.5 for every issue, less the rounding step. *)
Theorem score_nonempty_below_100 (issues : list Issue)
    (r : Scorer.ScoreResult) :
  issues ≠ [] → Scorer.score issues = Ok r →
  (Scorer.total_score r <= 99.9)%Q
  ∧ (100 - 13.5 * inject_Z (Z.of_nat (length issues)) - 0.05
     <= Scorer.total_score r)%Q.
Proof.
  intros Hne Hr. rewrite (score_total_sum _ _ Hr).
  set (S := ScoreSpec.sum _).
  pose proof (sum_weighted_bounds issues) as [Hlo Hhi]. fold S in Hlo, Hhi.
  pose proof (count_pos issues Hne) as Hn.
  split.
  - assert (Py.max 0 (100 - S) <= 99.92)%Q as Hm.
    { destruct (max_spec 0 (100 - S)) as [[? ->]|[? ->]]; lra. }
    apply round1_mono in Hm.
    assert (round1 99.92 == 99.9)%Q as H99 by (by vm_compute).
    by rewrite H99 in Hm.
  - pose proof (round1_bounds (Py.max 0 (100 - S))) as [Hb _].
    destruct (max_spec 0 (100 - S)) as [[? Hm]|[? Hm]]; lra.
Qed.

(** An instance of X2: the scenario input. *)
Lemma score_nonempty_below_100_witness :
  [Examples.hardcoded_secret] ≠ []
  ∧ Scorer.score [Examples.hardcoded_secret]
    = Ok Examples.hardcoded_secret_score
  ∧ (Scorer.total_score Examples.hardcoded_secret_score <= 99.9)%Q.
Proof.
  split_and!; [done|vm_compute; reflexivity|].
  apply (score_nonempty_below_100 [Examples.hardcoded_secret]); [done|].
  vm_compute; reflexivity.
Defined.

(** ** When the scorer returns *)

Section ScoreReturns.
Import Scorer ScoreSpec.

Lemma for_each_app {S A} (body : S → A → result S) st l1 l2 :
  for_each body st (l1 ++ l2)
  = st' ← for_each body st l1; for_each body st' l2.
Proof.
  revert st. induction l1 as [|x l1 IH]; intros st; [done|].
  cbn [app for_each]. destruct (body st x) as [st'|e]; [|done].
  cbn. apply IH.
Qed.

(** The counters keep their keys while the severities are counted. *)
Lemma for_each_count_severity_keys (d : gmap string nat) issues :
  (∀ i, i ∈ issues → is_Some (d !! severity_of i)) →
  ∃ d', for_each count_severity d issues = Ok d'
        ∧ ∀ k, d' !! k = None ↔ d !! k = None.
Proof.
  revert d. induction issues as [|x issues IH]; intros d Hd.
  - by exists d.
  - cbn [for_each]. destruct (Hd x) as [n Hn]; [left|].
    rewrite count_severity_eq, Hn. cbn.
    destruct (IH (<[severity_of x := S n]> d)) as (d' & -> & Hd').
    + intros i Hi.
      destruct (decide (severity_of i = severity_of x)) as [->|Hne].
      * rewrite lookup_insert_eq. by eexists.
      * rewrite lookup_insert_ne by done. apply Hd. by right.
    + exists d'. split; [done|]. intros k. rewrite Hd', lookup_insert_None.
      split; [tauto|]. intros Hk. split; [done|]. congruence.
Qed.

Lemma summary_raises_at_first issues1 x issues2 score category_scores :
  (∀ i, i ∈ issues1 → recognised (severity_of i)) →
  ¬ recognised (severity_of x) →
  _generate_summary (issues1 ++ x :: issues2) score category_scores
  = Raise (KeyError (severity_of x)).
Proof.
  intros Hrec Hx. unfold _generate_summary. rewrite for_each_app.
  destruct (for_each_count_severity_keys
              (list_to_map [("error", 0); ("high", 0); ("medium", 0);
                            ("low", 0); ("info", 0)])%nat issues1)
    as (d' & -> & Hd').
  - intros i Hi. apply recognised_counter. by apply Hrec.
  - cbn. rewrite count_severity_eq.
    assert (d' !! severity_of x = None) as ->; [|done].
    apply Hd'. apply eq_None_not_Some. by rewrite recognised_counter.
Qed.

End ScoreReturns.

(** X3. [score] returns exactly on the inputs whose severities are all
    among error, high, medium, low and info (an absent severity counts as
    info).  On any other input it raises [KeyError], with the first
    severity of the input that is not among the five. *)
Theorem score_returns_iff_recognised (issues : list Issue) :
  ((∀ i, i ∈ issues → ScoreSpec.recognised (ScoreSpec.severity_of i))
   ↔ ∃ r, Scorer.score issues = Ok r)
  ∧ ∀ issues1 x issues2,
      issues = issues1 ++ x :: issues2 →
      (∀ i, i ∈ issues1 → ScoreSpec.recognised (ScoreSpec.severity_of i)) →
      ¬ ScoreSpec.recognised (ScoreSpec.severity_of x) →
      Scorer.score issues = Raise (KeyError (ScoreSpec.severity_of x)).
Proof.
  split.
  - split; [apply score_returns|].
    intros [r Hr] i Hi. by apply (score_ok_recognised issues r).
  - intros issues1 x issues2 -> Hrec Hx. unfold Scorer.score.
    assert (Scorer.nonempty (issues1 ++ x :: issues2) = true) as ->
      by (by destruct issues1).
    cbn [negb]. destruct (foldl Scorer.score_step _ _) as [cs tp].
    by rewrite summary_raises_at_first.
Qed.

(** X4. Taking issues away never lowers the total score: when [score]
    returns on a sequence, it returns on every subsequence, with a total
    score that is at least as high.  Deduplication is one case. *)
Theorem score_subsequence_not_lower (issues' issues : list Issue)
    (r : Scorer.ScoreResult) :
  issues' `sublist_of` issues → Scorer.score issues = Ok r →
  (∃ r', Scorer.score issues' = Ok r'
         ∧ (Scorer.total_score r <= Scorer.total_score r')%Q)
  ∧ ∃ r', Scorer.score (Analyzer._deduplicate_issues issues) = Ok r'
          ∧ (Scorer.total_score r <= Scorer.total_score r')%Q.
Proof.
  assert (∀ l, l `sublist_of` issues → Scorer.score issues = Ok r →
               ∃ r', Scorer.score l = Ok r'
                     ∧ (Scorer.total_score r <= Scorer.total_score r')%Q)
    as Hsub.
  { intros l Hl Hr.
    destruct (score_returns l) as [r' Hr'].
    { intros i Hi. apply (score_ok_recognised issues r i Hr).
      by apply (elem_of_sublist l issues). }
    exists r'. split; [done|].
    rewrite (score_total_sum _ _ Hr), (score_total_sum _ _ Hr').
    apply round1_mono, max_zero_mono.
    pose proof (sum_weighted_sublist l issues Hl). lra. }
  intros Hl Hr. split; [by apply Hsub|]. apply Hsub; [|done].
  unfold Analyzer._deduplicate_issues. rewrite dedup_invariant.
  apply first_occurrences_sublist.
Qed.

(** An instance of X4: the scenario input followed by itself. *)
Lemma score_subsequence_not_lower_witness :
  [Examples.hardcoded_secret]
    `sublist_of` [Examples.hardcoded_secret; Examples.hardcoded_secret]
  ∧ ∃ r r',
      Scorer.score [Examples.hardcoded_secret; Examples.hardcoded_secret]
      = Ok r
      ∧ Scorer.score [Examples.hardcoded_secret] = Ok r'
      ∧ (Scorer.total_score r <= Scorer.total_score r')%Q.
Proof.
  assert ([Examples.hardcoded_secret]
            `sublist_of`
            [Examples.hardcoded_secret; Examples.hardcoded_secret]) as Hs
    by (apply sublist_skip, sublist_nil_l).
  split; [exact Hs|].
  destruct (Scorer.score
              [Examples.hardcoded_secret; Examples.hardcoded_secret])
    as [r|] eqn:Hr; [|vm_compute in Hr; discriminate Hr].
  destruct (score_subsequence_not_lower _ _ r Hs Hr)
    as [(r' & Hr' & Hle) _].
  exists r, r'. split_and!; [reflexivity|exact Hr'|exact Hle].
Defined.

(** ** Grades and penalties *)

(** X5. A higher score never gets a worse grade: [_calculate_grade] is
    monotone for the order F, D, C-, C, C+, B-, B, B+, A-, A, A+ of the
    grades.  The grade is F exactly below 50 and A+ exactly from 95 on. *)
Theorem calculate_grade_monotone (s1 s2 : Q) :
  (s1 <= s2)%Q →
  Derived.grade_rank (Scorer._calculate_grade s1)
  ≤ Derived.grade_rank (Scorer._calculate_grade s2)
  ∧ (Scorer._calculate_grade s1 = "F" ↔ (s1 < 50)%Q)
  ∧ (Scorer._calculate_grade s1 = "A+" ↔ (95 <= s1)%Q).
Proof.
  intros Hle. unfold Scorer._calculate_grade. split_and!.
  - repeat match goal with
           | |- context [ge ?s ?b] =>
               let H := fresh "H" in
               destruct (ge s b) eqn:H;
               [apply ge_true in H|apply ge_false in H]
           end;
      try (exfalso; lra); vm_compute; lia.
  - repeat match goal with
           | |- context [ge ?s ?b] =>
               let H := fresh "H" in
               destruct (ge s b) eqn:H;
               [apply ge_true in H|apply ge_false in H]
           end;
      (split; [intros; (done || lra)|intros; (done || (exfalso; lra))]).
  - repeat match goal with
           | |- context [ge ?s ?b] =>
               let H := fresh "H" in
               destruct (ge s b) eqn:H;
               [apply ge_true in H|apply ge_false in H]
           end;
      (split; [intros; (done || lra)|intros; (done || (exfalso; lra))]).
Qed.

(** An instance of X5: 89.9 and 90. *)
Lemma calculate_grade_monotone_witness :
  (89.9 <= 90)%Q
  ∧ Derived.grade_rank (Scorer._calculate_grade 89.9)
    ≤ Derived.grade_rank (Scorer._calculate_grade 90).
Proof.
  assert (89.9 <= 90)%Q as Hle by (vm_compute; discriminate).
  split; [exact Hle|]. apply (calculate_grade_monotone 89.9 90 Hle).
Defined.


(** ** Grouping, metrics and recommendations *)

Section Grouping.
Import Scorer ScoreSpec Derived.

Lemma first_seen_snoc l x :
  first_seen (l ++ [x])
  = if decide (x ∈ first_seen l) then first_seen l else first_seen l ++ [x].
Proof. unfold first_seen. by rewrite foldl_snoc. Qed.

Lemma group_issues_keys issues :
  (_group_issues_by_category issues).*1
  = first_seen (category_of <$> issues).
Proof.
  induction issues as [|x issues IH] using rev_ind; [done|].
  rewrite group_issues_snoc, group_append_keys, fmap_app. cbn [fmap list_fmap].
  by rewrite first_seen_snoc, IH.
Qed.

(** In a dict with distinct keys, every entry is what [get] returns for
    its key. *)
Lemma dict_get_entries {V} (d : list (string * V)) :
  NoDup d.*1 → Forall (λ e, dict_get d e.1 = Some e.2) d.
Proof.
  induction d as [|[k v] d IH]; intros Hnd; [constructor|].
  rewrite fmap_cons in Hnd. apply NoDup_cons in Hnd as [Hk Hnd].
  cbn [fst] in Hk. constructor.
  - cbn. by rewrite decide_True.
  - eapply Forall_impl; [by apply IH|]. intros [k' v'] Hg.
    cbn [dict_get fst snd] in *. rewrite decide_False; [done|].
    intros ->. apply dict_get_None in Hk. congruence.
Qed.

Lemma elem_of_first_seen l x : x ∈ first_seen l ↔ x ∈ l.
Proof.
  induction l as [|y l IH] using rev_ind; [done|].
  rewrite first_seen_snoc, elem_of_app, list_elem_of_singleton, <- IH.
  case_decide as Hy.
  - split; [tauto|]. intros [?| ->]; done.
  - by rewrite elem_of_app, list_elem_of_singleton.
Qed.

Lemma first_seen_NoDup l : NoDup (first_seen l).
Proof.
  induction l as [|y l IH] using rev_ind; [constructor|].
  rewrite first_seen_snoc. case_decide as Hy; [done|].
  apply NoDup_app. split_and!; [done| |apply NoDup_singleton].
  by intros x Hx ->%list_elem_of_singleton.
Qed.

End Grouping.

(** X7. [_group_issues_by_category] returns one group for every category
    of the input (an absent category is "unknown"), in the order in which
    the categories first occur; the group of a category holds the issues of
    that category in input order, so no group is empty and every issue is
    in exactly the group of its category. *)
Theorem group_issues_by_category_spec (issues : list Issue) :
  Scorer._group_issues_by_category issues
  = (λ c, (c, filter (λ i, ScoreSpec.category_of i = c) issues))
      <$> Derived.first_seen (ScoreSpec.category_of <$> issues)
  ∧ NoDup (Derived.first_seen (ScoreSpec.category_of <$> issues))
  ∧ (∀ c, c ∈ Derived.first_seen (ScoreSpec.category_of <$> issues)
          ↔ ∃ i, i ∈ issues ∧ ScoreSpec.category_of i = c).
Proof.
  split_and!.
  - rewrite <- group_issues_keys.
    pose proof (dict_get_entries _ (group_issues_NoDup issues)) as Hall.
    set (G := Scorer._group_issues_by_category issues) in *.
    assert (Forall (λ e, e = (e.1, filter (λ i, ScoreSpec.category_of i = e.1)
                                      issues)) G) as Heq.
    { eapply Forall_impl; [exact Hall|]. intros [c g] Hg.
      cbn [fst snd] in *. unfold G in Hg.
      rewrite dict_get_group_issues in Hg.
      destruct (filter _ issues); [done|]. by injection Hg as <-. }
    clear Hall. induction Heq as [|e G' He _ IH]; [done|].
    rewrite !fmap_cons. by rewrite <- IH, <- He.
  - apply first_seen_NoDup.
  - intros c. rewrite elem_of_first_seen, list_elem_of_fmap.
    split; intros (i & Hc & Hi); exists i; by split.
Qed.

Section MetricsCounts.
Import Scorer ScoreSpec Derived.

(** A counter dict filled by [d[k] = d.get(k, 0) + 1]. *)
Lemma count_item_fold (f : Issue → string) issues k :
  foldl (λ d i, count_item d (f i)) (∅ : gmap string nat) issues !! k
  = counted (count_where f k issues).
Proof.
  unfold counted, count_where.
  induction issues as [|x issues IH] using rev_ind; [done|].
  rewrite foldl_snoc, filter_app, length_app, filter_cons, filter_nil.
  unfold count_item at 1.
  destruct (decide (f x = k)) as [->|Hne].
  - rewrite lookup_insert_eq, IH. cbn [length].
    rewrite (decide_False (P := _ + 1 = 0)) by lia. case_decide as Hn.
    + rewrite Hn. done.
    + cbn. f_equal. lia.
  - rewrite lookup_insert_ne by done. rewrite IH. cbn [length].
    by rewrite Nat.add_0_r.
Qed.

Lemma metrics_loop_counters m issues :
  acc_by_severity (foldl metrics_step m issues)
  = foldl (λ d i, count_item d (severity_of i)) (acc_by_severity m) issues
  ∧ acc_by_category (foldl metrics_step m issues)
    = foldl (λ d i, count_item d (category_of i)) (acc_by_category m) issues
  ∧ acc_by_tool (foldl metrics_step m issues)
    = foldl (λ d i, count_item d (tool_of i)) (acc_by_tool m) issues.
Proof.
  revert m. induction issues as [|x issues IH]; intros m; [done|].
  cbn [foldl]. destruct (IH (metrics_step m x)) as (-> & -> & ->). done.
Qed.

End MetricsCounts.

(** X8. In the metrics, [total_issues] is the length of the input, and each
    of the three counter dicts holds, for a severity, a category or a tool
    (absent fields read as "info", "unknown", "unknown"), the number of
    issues that carry it, and has no key for a value no issue carries. *)
Theorem calculate_metrics_counters (issues : list Issue) :
  let m := Scorer._calculate_metrics issues in
  Scorer.total_issues m = length issues
  ∧ (∀ s, Scorer.issues_by_severity m !! s
          = Derived.counted
              (Derived.count_where ScoreSpec.severity_of s issues))
  ∧ (∀ c, Scorer.issues_by_category m !! c
          = Derived.counted
              (Derived.count_where ScoreSpec.category_of c issues))
  ∧ (∀ t, Scorer.issues_by_tool m !! t
          = Derived.counted
              (Derived.count_where ScoreSpec.tool_of t issues)).
Proof.
  unfold Scorer._calculate_metrics.
  cbn [Scorer.total_issues Scorer.issues_by_severity
       Scorer.issues_by_category Scorer.issues_by_tool].
  destruct (metrics_loop_counters
              {| Scorer.acc_by_severity := ∅; Scorer.acc_by_category := ∅;
                 Scorer.acc_by_tool := ∅; Scorer.acc_files := ∅;
                 Scorer.acc_lines := ∅ |} issues) as (-> & -> & ->).
  cbn [Scorer.acc_by_severity Scorer.acc_by_category Scorer.acc_by_tool].
  split_and!; [done|..]; intros k; apply count_item_fold.
Qed.

Section Recommendations.
Import Scorer Derived.

Local Abbreviation optional b r := (if b : bool then [r] else []).

Lemma append_if_app b (l : list string) r :
  append_if b l r = l ++ optional b r.
Proof. destruct b; [done|]. by rewrite app_nil_r. Qed.

Lemma elem_of_optional (r r' : string) b :
  r ∈ optional b r' ↔ b = true ∧ r = r'.
Proof.
  destruct b.
  - rewrite list_elem_of_singleton. tauto.
  - rewrite elem_of_nil. split; [done|]. by intros [? _].
Qed.

Lemma nonempty_filter {A} (P : A → Prop) `{!∀ x, Decision (P x)} l :
  nonempty (filter P l) = true ↔ ∃ x, x ∈ l ∧ P x.
Proof.
  rewrite nonempty_true. split.
  - intros Hne. destruct (filter P l) as [|x l'] eqn:Hf; [done|].
    exists x. apply and_comm, (list_elem_of_filter P). rewrite Hf. left.
  - intros (x & Hx & HP) Hnil.
    assert (x ∈ filter P l) as Hin by (by apply list_elem_of_filter).
    rewrite Hnil in Hin. by apply elem_of_nil in Hin.
Qed.

Lemma existsb_bool_decide {A} (P : A → Prop) `{!∀ x, Decision (P x)} l :
  existsb (λ x, bool_decide (P x)) l = true ↔ ∃ x, x ∈ l ∧ P x.
Proof.
  rewrite existsb_exists. split; intros (x & Hx & HP); exists x.
  - apply bool_decide_eq_true in HP. by rewrite list_elem_of_In.
  - rewrite <- list_elem_of_In. by rewrite bool_decide_eq_true.
Qed.

(** The recommendations as a concatenation: one optional entry for each
    condition, the entries on the size of the input excluding each other. *)
Lemma generate_recommendations_eq issues category_scores :
  _generate_recommendations issues category_scores
  = optional (nonempty (filter (λ i, category i = Some "security") issues))
             rec_security
    ++ optional (nonempty (filter (λ i, severity i = Some "error") issues))
                rec_errors
    ++ optional (nonempty (filter (λ i, category i = Some "complexity")
                                  issues))
                rec_complexity
    ++ optional (nonempty (filter (λ i, category i = Some "style") issues))
                rec_style
    ++ optional (20 <? length issues) rec_split
    ++ optional ((10 <? length issues) && negb (20 <? length issues))
                rec_review
    ++ optional (existsb (λ i, bool_decide (tool i = Some "bandit")) issues)
                rec_scans
    ++ optional (existsb (λ i, bool_decide (tool i = Some "radon")) issues)
                rec_ci.
Proof.
  unfold _generate_recommendations. rewrite !append_if_app.
  destruct (20 <? length issues), (10 <? length issues); cbn [andb negb];
    rewrite <- ?app_assoc; cbn [app]; rewrite ?app_nil_r; done.
Qed.

Lemma optional_sublist b (r : string) : optional b r `sublist_of` [r].
Proof. destruct b; [done|apply sublist_nil_l]. Qed.

End Recommendations.

(** Membership of one text in the concatenation: only the entry of that
    text can hold it. *)
Ltac rec_member tac :=
  rewrite !elem_of_app, !elem_of_optional;
  etrans; [|tac];
  split;
  [let H := fresh "H" in
   intros H; repeat destruct H as [H|H]; destruct H as [Hb Heq];
   try discriminate Heq; exact Hb
  |intros Hb].


(** X9. The recommendations are a selection of the eight fixed texts, in
    their fixed order, and do not depend on the breakdown: the security
    text is there exactly when an issue has the category "security", the
    error text when an issue has the severity "error", the complexity and
    style texts when an issue has that category, the split text when there
    are more than 20 issues, the review text when there are more than 10
    and at most 20 (never both), the scan text when an issue comes from
    bandit and the CI text when an issue comes from radon. *)
Theorem generate_recommendations_spec (issues : list Issue)
    (category_scores : gmap string Q) :
  let recommendations :=
    Scorer._generate_recommendations issues category_scores in
  recommendations `sublist_of` Derived.all_recommendations
  ∧ (Scorer.rec_security ∈ recommendations
     ↔ ∃ i, i ∈ issues ∧ category i = Some "security")
  ∧ (Scorer.rec_errors ∈ recommendations
     ↔ ∃ i, i ∈ issues ∧ severity i = Some "error")
  ∧ (Scorer.rec_complexity ∈ recommendations
     ↔ ∃ i, i ∈ issues ∧ category i = Some "complexity")
  ∧ (Scorer.rec_style ∈ recommendations
     ↔ ∃ i, i ∈ issues ∧ category i = Some "style")
  ∧ (Scorer.rec_split ∈ recommendations ↔ 20 < length issues)
  ∧ (Scorer.rec_review ∈ recommendations
     ↔ 10 < length issues ∧ length issues ≤ 20)
  ∧ (Scorer.rec_scans ∈ recommendations
     ↔ ∃ i, i ∈ issues ∧ tool i = Some "bandit")
  ∧ (Scorer.rec_ci ∈ recommendations
     ↔ ∃ i, i ∈ issues ∧ tool i = Some "radon").
Proof.
  cbn zeta. rewrite generate_recommendations_eq.
  split.
  { unfold Derived.all_recommendations.
    change [Scorer.rec_security; Scorer.rec_errors; Scorer.rec_complexity;
            Scorer.rec_style; Scorer.rec_split; Scorer.rec_review;
            Scorer.rec_scans; Scorer.rec_ci]
      with ([Scorer.rec_security] ++ [Scorer.rec_errors]
            ++ [Scorer.rec_complexity] ++ [Scorer.rec_style]
            ++ [Scorer.rec_split] ++ [Scorer.rec_review]
            ++ [Scorer.rec_scans] ++ [Scorer.rec_ci]).
    repeat (apply sublist_app; [apply optional_sublist|]).
    apply optional_sublist. }
  assert (∀ n, (10 <? n) && negb (20 <? n) = true ↔ 10 < n ∧ n ≤ 20)
    as Hreview.
  { intros n. rewrite andb_true_iff, negb_true_iff, Nat.ltb_lt, Nat.ltb_ge.
    done. }
  split_and!;
    [rec_member ltac:(apply nonempty_filter)
    |rec_member ltac:(apply nonempty_filter)
    |rec_member ltac:(apply nonempty_filter)
    |rec_member ltac:(apply nonempty_filter)
    |rec_member ltac:(apply Nat.ltb_lt)
    |rec_member ltac:(apply Hreview)
    |rec_member ltac:(apply existsb_bool_decide)
    |rec_member ltac:(apply existsb_bool_decide)].
  - by left.
  - right; by left.
  - do 2 right; by left.
  - do 3 right; by left.
  - do 4 right; by left.
  - do 5 right; by left.
  - do 6 right; by left.
  - do 7 right; done.
Qed.

(** ** Deduplication, again *)


(** ** Grouping by file *)

Section GroupBy.
Import Derived.
Context {V : Type} (f : V → string).

Local Abbreviation group_of l :=
  (λ k : string, (k, filter (λ i, f i = k) l)).

Lemma fmap_ext_in {A B} (g h : A → B) (l : list A) :
  (∀ x, x ∈ l → g x = h x) → g <$> l = h <$> l.
Proof.
  induction l as [|a l IH]; intros Hgh; [done|].
  rewrite !fmap_cons, (Hgh a) by left. f_equal. apply IH.
  intros x Hx. apply Hgh. by right.
Qed.

Lemma group_append_groups l x ks :
  NoDup ks →
  group_append (group_of l <$> ks) (f x) x
  = if decide (f x ∈ ks) then group_of (l ++ [x]) <$> ks
    else (group_of (l ++ [x]) <$> ks) ++ [(f x, [x])].
Proof.
  induction 1 as [|k ks Hk Hnd IH]; [done|].
  rewrite !fmap_cons. cbn [group_append].
  destruct (decide (f x = k)) as [Hx|Hx].
  - rewrite (decide_True (P := f x ∈ k :: ks)) by (rewrite Hx; left).
    rewrite filter_app, filter_cons, filter_nil, decide_True by done.
    f_equal. apply fmap_ext_in. intros k' Hk'.
    rewrite filter_app, filter_cons, filter_nil, decide_False, app_nil_r;
      [done|]. intros Heq. apply Hk. by rewrite <- Hx, Heq.
  - rewrite IH, filter_app, filter_cons, filter_nil.
    rewrite (decide_False (P := f x = k)), app_nil_r by done.
    destruct (decide (f x ∈ ks)) as [Hin|Hin].
    + rewrite decide_True; [done|by right].
    + rewrite decide_False; [done|].
      rewrite not_elem_of_cons. split; [done|done].
Qed.

(** The groups of a sequence by a key: one group for every key, in the
    order of first occurrence, holding the elements of that key in input
    order. *)
Lemma group_fold_spec l :
  foldl (λ d i, group_append d (f i) i) [] l
  = group_of l <$> first_seen (f <$> l).
Proof.
  induction l as [|x l IH] using rev_ind; [done|].
  rewrite foldl_snoc, IH, group_append_groups by apply first_seen_NoDup.
  rewrite fmap_app. cbn [fmap list_fmap]. rewrite first_seen_snoc.
  case_decide as Hin; [done|].
  rewrite fmap_app. cbn [fmap list_fmap]. do 2 f_equal.
  rewrite filter_app, filter_cons, filter_nil, decide_True by done.
  assert (filter (λ i, f i = f x) l = []) as ->; [|done].
  destruct (filter (λ i, f i = f x) l) as [|y l'] eqn:Hf; [done|].
  exfalso. apply Hin, elem_of_first_seen, list_elem_of_fmap.
  assert (y ∈ filter (λ i, f i = f x) l) as [Hy ?]%list_elem_of_filter
    by (rewrite Hf; left).
  by exists y.
Qed.

(** Put together, the groups hold the elements of the sequence. *)
Lemma group_fold_Permutation l :
  concat ((foldl (λ d i, group_append d (f i) i) [] l).*2) ≡ₚ l.
Proof.
  induction l as [|x l IH] using rev_ind; [done|].
  rewrite foldl_snoc. rewrite <- IH at 2.
  generalize (foldl (λ d i, group_append d (f i) i) [] l). clear.
  intros d. induction d as [|[k v] d IHd]; [done|].
  cbn [group_append]. case_decide.
  - rewrite !fmap_cons. cbn [snd concat].
    rewrite <- !app_assoc. f_equiv. apply Permutation_app_comm.
  - rewrite !fmap_cons. cbn [snd concat]. rewrite IHd.
    by rewrite app_assoc.
Qed.

End GroupBy.

(** ** Template feedback *)

Section TemplateFeedback.
Import Feedback Derived.

Lemma generate_template_feedback_fmap issues :
  _generate_template_feedback issues = template_feedback <$> issues.
Proof.
  unfold _generate_template_feedback.
  induction issues as [|x issues IH] using rev_ind; [done|].
  by rewrite foldl_snoc, IH, fmap_app.
Qed.

Lemma startswith_append p s : startswith (p +:+ s) p = true.
Proof.
  unfold startswith. induction p as [|c p IH]; [by destruct s|].
  simpl. by destruct (ascii_dec c c).
Qed.

Lemma prioritize_sorted_id items :
  StronglySorted (λ a b, key_leb (sort_key a) (sort_key b) = true) items →
  _prioritize_feedback items = items.
Proof.
  intros Hs. symmetry.
  by apply (sorted_unique key_leb sort_key key_leb_total key_leb_trans
              _ _ key_leb_antisym).
Qed.

(** The feedback [generate] returns, from the feedback of the file
    groups. *)
Lemma generate_eq self issues :
  generate self issues
  = _prioritize_feedback (concat (group_feedback self <$> file_groups issues)).
Proof.
  unfold generate. fold (file_groups issues). f_equal.
  generalize (file_groups issues). intros G.
  induction G as [|[file_path file_issues] G IH] using rev_ind; [done|].
  rewrite foldl_snoc, generate_step_eq, IH, fmap_app, concat_app.
  cbn [fmap list_fmap concat]. by rewrite app_nil_r.
Qed.

Lemma concat_template_feedback (G : list (string * list Issue)) :
  concat ((λ e, _generate_template_feedback e.2) <$> G)
  = _generate_template_feedback (concat G.*2).
Proof.
  rewrite generate_template_feedback_fmap.
  induction G as [|[k g] G IH]; [done|].
  rewrite !fmap_cons. cbn [concat snd].
  by rewrite fmap_app, IH, generate_template_feedback_fmap.
Qed.

End TemplateFeedback.

(** X11. The template engine returns one feedback item for every issue, in
    the order of the issues; the item of an issue carries its file and its
    line (read as [""] and [0] when absent), and always holds a severity, a
    category, a message, a tool and a list of suggestions. *)
Theorem template_feedback_one_per_issue (issues : list Issue) :
  Forall2
    (λ issue item,
       fb_file item = Some (default "" (file issue))
       ∧ fb_line item = Some (default 0%Z (line issue))
       ∧ is_Some (fb_severity item) ∧ is_Some (fb_category item)
       ∧ is_Some (fb_message item) ∧ is_Some (fb_tool item)
       ∧ is_Some (fb_suggestions item))
    issues (Feedback._generate_template_feedback issues).
Proof.
  rewrite generate_template_feedback_fmap. apply Forall2_fmap_r.
  apply Forall_Forall2_diag, Forall_forall. intros issue _.
  unfold compose, Feedback.template_feedback. cbv beta.
  repeat case_decide; cbn; split_and!; by eauto.
Qed.

(** X12. For every issue whose tool is "bandit", the one feedback item of
    the template engine has the message of the issue behind the prefix
    "Security issue: ", the category "security" and the tool "bandit",
    whatever the category of the issue; its suggestions are empty exactly
    when the message mentions, in any case of letters, neither "hardcoded"
    nor "exec". *)
Theorem security_feedback_prefix (issue : Issue) :
  tool issue = Some "bandit" →
  ∃ item m suggestions,
    Feedback._generate_template_feedback [issue] = [item]
    ∧ fb_message item = Some m
    ∧ m = "Security issue: " +:+ default "" (message issue)
    ∧ startswith m "Security issue: " = true
    ∧ fb_category item = Some "security"
    ∧ fb_tool item = Some "bandit"
    ∧ fb_suggestions item = Some suggestions
    ∧ (suggestions = []
       ↔ contains "hardcoded" (lower (default "" (message issue))) = false
         ∧ contains "exec" (lower (default "" (message issue))) = false).
Proof.
  intros Ht. rewrite generate_template_feedback_fmap. cbn [fmap list_fmap].
  unfold Feedback.template_feedback. rewrite Ht. cbn [default].
  rewrite decide_False, decide_True by done.
  do 3 eexists. split_and!; try reflexivity.
  - apply startswith_append.
  - cbn. destruct (contains "hardcoded" _); [split; [done|by intros [? _]]|].
    destruct (contains "exec" _); [split; [done|by intros [_ ?]]|done].
Qed.

(** An instance of X12: the hardcoded secret reported by bandit. *)
Lemma security_feedback_prefix_witness :
  tool Examples.hardcoded_secret_bandit = Some "bandit"
  ∧ ∃ item m,
      Feedback._generate_template_feedback [Examples.hardcoded_secret_bandit]
      = [item]
      ∧ fb_message item = Some m
      ∧ startswith m "Security issue: " = true.
Proof.
  split; [reflexivity|].
  destruct (security_feedback_prefix Examples.hardcoded_secret_bandit
              eq_refl)
    as (item & m & s & Hgen & Hm & _ & Hp & _).
  exists item, m. split_and!; [exact Hgen|exact Hm|exact Hp].
Defined.

(** X13. The severity of an issue is carried to its feedback item
    unchanged; for an issue without severity the item gets "info" from the
    flake8 and the generic template, "high" from the bandit template,
    "medium" from the radon template and "low" from the custom one. *)
Theorem template_feedback_severity (issue : Issue) :
  fb_severity <$> Feedback._generate_template_feedback [issue]
  = [Some (match severity issue with
           | Some s => s
           | None => Derived.default_severity (ScoreSpec.tool_of issue)
           end)].
Proof.
  rewrite generate_template_feedback_fmap. cbn [fmap list_fmap].
  unfold Feedback.template_feedback, Derived.default_severity,
    ScoreSpec.tool_of.
  repeat case_decide; destruct (severity issue) eqn:Hs; cbn;
    rewrite ?Hs; done.
Qed.

(** X14. For every issue whose tool is "flake8", the feedback item has the
    category "style" and the code of the issue; its message is the text of
    the style table when the code is one of E501, E302, E305, W293, E111,
    E112, whatever the message of the issue, and the message of the issue
    otherwise.  The codes F841, F401, F821 and F823 of the error table are
    not among the six: the tables other than the style one are never
    read.  The item has a suggestion exactly for E501, F841 and F401. *)
Theorem flake8_feedback_message (issue : Issue) :
  tool issue = Some "flake8" →
  let code := default "" (code issue) in
  ∃ item suggestions,
    Feedback._generate_template_feedback [issue] = [item]
    ∧ fb_category item = Some "style" ∧ fb_code item = Some code
    ∧ (code ∈ Derived.style_codes →
       fb_message item = default ∅ (Feedback.templates !! "style") !! code
       ∧ is_Some (fb_message item))
    ∧ (code ∉ Derived.style_codes →
       fb_message item = Some (default "" (message issue)))
    ∧ (code ∈ ["F841"; "F401"; "F821"; "F823"] →
       is_Some (default ∅ (Feedback.templates !! "error") !! code)
       ∧ code ∉ Derived.style_codes)
    ∧ fb_suggestions item = Some suggestions
    ∧ (suggestions ≠ [] ↔ code ∈ ["E501"; "F841"; "F401"]).
Proof.
  intros Ht code. rewrite generate_template_feedback_fmap.
  cbn [fmap list_fmap].
  unfold Feedback.template_feedback. rewrite Ht. cbn [default].
  rewrite decide_True by done. do 2 eexists.
  split; [reflexivity|].
  cbn [fb_category fb_code fb_message fb_suggestions
       Feedback._generate_flake8_feedback].
  fold code. clearbody code.
  split_and!; try reflexivity.
  - intros Hc. unfold Derived.style_codes in Hc.
    repeat (apply elem_of_cons in Hc as [->|Hc];
            [vm_compute; split; [reflexivity|by eexists]|]).
    by apply elem_of_nil in Hc.
  - intros Hc. f_equal. unfold Derived.style_codes in Hc.
    rewrite !not_elem_of_cons in Hc. cbn.
    rewrite lookup_insert_eq. unfold default at 2. cbn [from_option id].
    unfold id at 1.
    repeat (rewrite lookup_insert_ne by (intros Heq; symmetry in Heq; tauto)).
    by rewrite lookup_empty.
  - intros Hc.
    repeat (apply elem_of_cons in Hc as [->|Hc];
            [split; [vm_compute; by eexists|];
             unfold Derived.style_codes; rewrite !not_elem_of_cons;
             split_and!; (done || apply not_elem_of_nil)|]).
    by apply elem_of_nil in Hc.
  - rewrite !elem_of_cons, elem_of_nil.
    repeat case_decide; split; (done || tauto || (intros; exfalso; tauto)).
Qed.

(** An instance of X14: a line that is too long. *)
Lemma flake8_feedback_message_witness :
  tool Examples.issue_a = Some "flake8"
  ∧ ∃ item,
      Feedback._generate_template_feedback [Examples.issue_a] = [item]
      ∧ fb_category item = Some "style".
Proof.
  split; [reflexivity|].
  destruct (flake8_feedback_message Examples.issue_a eq_refl)
    as (item & s & Hgen & Hc & _).
  exists item. split; [exact Hgen|exact Hc].
Defined.

(** ** Prioritizing and generating *)

Lemma elem_of_concat {A} (x : A) (ls : list (list A)) :
  x ∈ concat ls ↔ ∃ l, x ∈ l ∧ l ∈ ls.
Proof.
  induction ls as [|l ls IH]; cbn [concat].
  - split; [by intros ?%elem_of_nil|]. by intros (l & _ & ?%elem_of_nil).
  - rewrite elem_of_app, IH. split.
    + intros [Hx|(l' & Hx & Hl')].
      * exists l. split; [done|left].
      * exists l'. split; [done|by right].
    + intros (l' & Hx & [->|Hl']%elem_of_cons); [by left|].
      right. by exists l'.
Qed.

(** X15. Prioritizing keeps the number of items, leaves a list that is
    already ascending for the sort key as it is, and is idempotent. *)
Theorem prioritize_feedback_idempotent (feedback_items : list FeedbackItem) :
  Feedback._prioritize_feedback (Feedback._prioritize_feedback feedback_items)
  = Feedback._prioritize_feedback feedback_items
  ∧ length (Feedback._prioritize_feedback feedback_items)
    = length feedback_items
  ∧ (StronglySorted
       (λ a b, Feedback.key_leb (Feedback.sort_key a) (Feedback.sort_key b)
               = true)
       feedback_items →
     Feedback._prioritize_feedback feedback_items = feedback_items).
Proof.
  split_and!.
  - apply prioritize_sorted_id. unfold Feedback._prioritize_feedback.
    apply sorted_StronglySorted; [apply key_leb_total|apply key_leb_trans].
  - apply Permutation_length. unfold Feedback._prioritize_feedback.
    apply sorted_Permutation.
  - apply prioritize_sorted_id.
Qed.

(** X16. A generator built with [use_ai] false, or without an API key in
    the environment, uses the templates only: the feedback is the template
    feedback of the issues, file group after file group, prioritized; it
    holds one item for every issue. *)
Theorem generate_without_ai (use_ai : bool) (openai_api_key : option string)
    (helper : AIHelper.t) (issues : list Issue) :
  use_ai = false ∨ truthy_str openai_api_key = false →
  let feedback :=
    Feedback.generate (Feedback.new use_ai openai_api_key helper) issues in
  feedback
  = Feedback._prioritize_feedback
      (Feedback._generate_template_feedback
         (concat (Derived.file_groups issues).*2))
  ∧ feedback ≡ₚ Feedback._generate_template_feedback issues
  ∧ length feedback = length issues.
Proof.
  intros Hoff feedback.
  assert (feedback
          = Feedback._prioritize_feedback
              (Feedback._generate_template_feedback
                 (concat (Derived.file_groups issues).*2))) as Heq.
  { unfold feedback. rewrite generate_eq, <- concat_template_feedback.
    do 2 f_equal. apply fmap_ext_in. intros e _.
    unfold Derived.group_feedback, Feedback.new.
    cbn [Feedback.use_ai Feedback.ai_helper].
    destruct Hoff as [-> | ->]; [done|]. by rewrite andb_false_r. }
  assert (feedback ≡ₚ Feedback._generate_template_feedback issues) as Hp.
  { rewrite Heq. unfold Feedback._prioritize_feedback.
    rewrite sorted_Permutation, !generate_template_feedback_fmap.
    apply fmap_Permutation. apply group_fold_Permutation. }
  split_and!; [done|done|].
  rewrite Hp, generate_template_feedback_fmap. apply length_fmap.
Qed.

(** An instance of X16: no API key. *)
Lemma generate_without_ai_witness :
  (true = false ∨ truthy_str None = false)
  ∧ length (Feedback.generate
              (Feedback.new true None Examples.helper_failing_on_a)
              [Examples.issue_a; Examples.issue_b]) = 2.
Proof.
  assert (true = false ∨ truthy_str None = false) as Hoff
    by (right; reflexivity).
  split; [exact Hoff|].
  destruct (generate_without_ai true None Examples.helper_failing_on_a
              [Examples.issue_a; Examples.issue_b] Hoff) as (_ & _ & Hlen).
  exact Hlen.
Defined.

(** X17. [generate] passes to the helper, or to the templates, one group
    for every file of the input (an absent file is "unknown"), in the order
    in which the files first occur, the group holding the issues of the
    file in input order; the feedback is the prioritized concatenation of
    the feedback of the groups, and the feedback of a group is the list the
    helper returns for it, or its template feedback when the helper raises
    for it.  A helper that raises for every group gives the feedback of the
    templates. *)
Theorem generate_per_file (self : Feedback.FeedbackGenerator)
    (issues : list Issue) :
  Feedback.generate self issues
  = Feedback._prioritize_feedback
      (concat (Derived.group_feedback self <$> Derived.file_groups issues))
  ∧ Derived.file_groups issues
    = (λ f, (f, filter (λ i, default "unknown" (file i) = f) issues))
        <$> Derived.first_seen ((λ i, default "unknown" (file i)) <$> issues)
  ∧ (∀ generate_feedback,
       Feedback.use_ai self = true →
       Feedback.ai_helper self = Some generate_feedback →
       (∀ file_path file_issues,
          ∃ e, generate_feedback file_path file_issues = Raise e) →
       Feedback.generate self issues
       = Feedback.generate Examples.template_generator issues).
Proof.
  split_and!.
  - apply generate_eq.
  - apply (group_fold_spec (λ i : Issue, default "unknown" (file i))).
  - intros gf Hu Hh Hraise. rewrite !generate_eq. do 2 f_equal.
    apply fmap_ext_in. intros [f g] _. unfold Derived.group_feedback.
    rewrite Hu, Hh. cbn [fst snd]. by destruct (Hraise f g) as [e ->].
Qed.

(** X18. With the helper of the repository, an API key and [use_ai] true,
    no feedback comes from the templates: [AIHelper.generate_feedback]
    never raises, every feedback item is one the helper returned for a file
    group, and a disabled helper (the client library is not installed)
    leaves every input without feedback. *)
Theorem repository_helper_never_falls_back (h : AIHelper.t)
    (openai_api_key : string) (issues : list Issue) :
  openai_api_key ≠ "" →
  let feedback :=
    Feedback.generate (Feedback.new true (Some openai_api_key) h) issues in
  (∀ file_path file_issues,
     ∃ items, AIHelper.generate_feedback h file_path file_issues = Ok items)
  ∧ (∀ item, item ∈ feedback →
       ∃ file_path file_issues items,
         (file_path, file_issues) ∈ Derived.file_groups issues
         ∧ AIHelper.generate_feedback h file_path file_issues = Ok items
         ∧ item ∈ items)
  ∧ (AIHelper.enabled h = false → feedback = []).
Proof.
  intros Hkey feedback.
  assert (truthy_str (Some openai_api_key) = true) as Htruthy.
  { unfold truthy_str. by rewrite (proj2 (String.eqb_neq _ _)). }
  assert (feedback
          = Feedback._prioritize_feedback
              (concat ((λ e, match AIHelper.generate_feedback h e.1 e.2 with
                             | Ok items => items
                             | Raise _ => []
                             end) <$> Derived.file_groups issues))) as Heq.
  { unfold feedback. rewrite generate_eq. do 2 f_equal.
    apply fmap_ext_in. intros [f g] _.
    unfold Derived.group_feedback, Feedback.new. rewrite Htruthy.
    cbn [andb Feedback.use_ai Feedback.ai_helper fst snd].
    by destruct (helper_generate_feedback_returns h f g) as [items ->]. }
  split_and!.
  - apply helper_generate_feedback_returns.
  - intros item Hin. rewrite Heq in Hin.
    unfold Feedback._prioritize_feedback in Hin.
    rewrite sorted_Permutation in Hin.
    apply elem_of_concat in Hin as (items & Hitem & Hitems).
    apply list_elem_of_fmap in Hitems as ([f g] & -> & Hg).
    cbn [fst snd] in Hitem.
    destruct (helper_generate_feedback_returns h f g) as [items Hi].
    rewrite Hi in Hitem. by exists f, g, items.
  - intros Hen. rewrite Heq.
    assert (concat ((λ e, match AIHelper.generate_feedback h e.1 e.2 with
                          | Ok items => items
                          | Raise _ => []
                          end) <$> Derived.file_groups issues) = []) as ->;
      [|done].
    clear Heq.
    induction (Derived.file_groups issues) as [|[f g] G IH]; [done|].
    rewrite fmap_cons. cbn [concat fst snd]. rewrite IH.
    unfold AIHelper.generate_feedback. by rewrite Hen.
Qed.

(** An instance of X18: the helper whose request fails for "a.py". *)
Lemma repository_helper_never_falls_back_witness :
  "sk-test" ≠ ""
  ∧ ∀ file_path file_issues,
      ∃ items,
        AIHelper.generate_feedback Examples.helper_failing_on_a
          file_path file_issues = Ok items.
Proof.
  assert ("sk-test" ≠ "") as Hkey by discriminate.
  split; [exact Hkey|].
  destruct (repository_helper_never_falls_back Examples.helper_failing_on_a
              "sk-test" [Examples.issue_a; Examples.issue_b] Hkey)
    as (Hret & _).
  exact Hret.
Defined.

(** ** The analysis run *)

(** Membership of a closed string in a closed list, and its negation. *)
Ltac closed_mem :=
  solve [repeat first [apply list_elem_of_here | apply list_elem_of_further]].
Ltac closed_not_mem H :=
  repeat (apply elem_of_cons in H as [H|H]; [discriminate H|]);
  by apply elem_of_nil in H.
Ltac closed_fact :=
  first
    [ closed_mem
    | let H := fresh "H" in
      split; intros H;
      first [ done | closed_mem | discriminate H
            | (destruct H as [H|H]; discriminate H)
            | closed_not_mem H
            | (left; reflexivity) | (right; reflexivity) ] ].

Lemma startswith_char (c a : ascii) (code : string) :
  startswith (String c code) (String a EmptyString) = bool_decide (a = c).
Proof.
  unfold startswith. cbn [String.prefix].
  assert (String.prefix "" code = true) as -> by (by destruct code).
  destruct (ascii_dec a c) as [Heq|Hne].
  - by rewrite bool_decide_eq_true_2.
  - by rewrite bool_decide_eq_false_2.
Qed.

(** X19. [_get_severity_from_code] returns "error", "warning" or "info",
    never "high", "medium" or "low"; it returns "warning" exactly for the
    codes that start with "W", and these are the codes whose severity has
    no counter in the summary of the scorer. *)
Theorem severity_from_code_recognised (code : string) :
  let s := Analyzer._get_severity_from_code code in
  s ∈ ["error"; "warning"; "info"]
  ∧ (s = "warning" ↔ startswith code "W" = true)
  ∧ (s = "error"
     ↔ startswith code "E" = true ∨ startswith code "F" = true)
  ∧ (ScoreSpec.recognised s ↔ startswith code "W" = false).
Proof.
  unfold Analyzer._get_severity_from_code, ScoreSpec.recognised.
  destruct code as [|c code].
  - cbn. split_and!; closed_fact.
  - rewrite !startswith_char.
    destruct (decide ("E"%char = c)) as [<-|HE];
      [|destruct (decide ("W"%char = c)) as [<-|HW];
        [|destruct (decide ("F"%char = c)) as [<-|HF]]];
      rewrite ?bool_decide_eq_true_2, ?bool_decide_eq_false_2 by done;
      cbn; split_and!; closed_fact.
Qed.

(** ** The analysis run *)

Section AnalyzeRun.

Import Analysis Derived.

Variable repr : string → string.
Variable self : Analysis.Analyzer.

Lemma missing_key_None d : missing_key d = None ↔ well_formed d.
Proof.
  unfold missing_key, well_formed.
  destruct (diff_file d), (diff_changes d); split; try done.
  - intros [_ []]. done.
  - intros [[] _]. done.
  - intros [[] _]. done.
Qed.

Lemma foldl_run_tool file_path changes all_issues tools :
  foldl (run_tool repr file_path changes) all_issues tools
  = all_issues ++ concat (tool_output repr file_path changes <$> tools).
Proof.
  revert all_issues.
  induction tools as [|[tool_name tool_func] tools IH]; intros all_issues.
  - by rewrite app_nil_r.
  - cbn [foldl]. rewrite IH, fmap_cons. cbn [concat].
    rewrite (assoc_L (++)). f_equal.
    unfold run_tool, tool_output. cbn [fst snd].
    by destruct (tool_func file_path changes).
Qed.

Lemma analyze_diff_ok all_issues d :
  well_formed d →
  analyze_diff repr self all_issues d
  = Ok (all_issues ++ diff_output repr self d).
Proof.
  intros [[f Hf] [c Hc]]. unfold analyze_diff, diff_output.
  rewrite Hf, Hc. cbn. by rewrite foldl_run_tool.
Qed.

Lemma analyze_diff_raise all_issues d k :
  missing_key d = Some k →
  analyze_diff repr self all_issues d = Raise (KeyError k).
Proof.
  unfold missing_key, analyze_diff.
  destruct (diff_file d), (diff_changes d); intros [= <-]; done.
Qed.

Lemma for_each_analyze_ok all_issues diffs :
  Forall well_formed diffs →
  for_each (analyze_diff repr self) all_issues diffs
  = Ok (all_issues ++ collected repr self diffs).
Proof.
  intros Hwf. revert all_issues.
  induction Hwf as [|d diffs Hd _ IH]; intros all_issues.
  - cbn. by rewrite app_nil_r.
  - cbn [for_each]. rewrite analyze_diff_ok by done. cbn.
    rewrite IH. f_equal. unfold collected. cbn.
    by rewrite (assoc_L (++)).
Qed.

Lemma analyze_ok diffs :
  Forall well_formed diffs →
  analyze repr self diffs
  = Ok (Analyzer._deduplicate_issues (collected repr self diffs)).
Proof.
  intros Hwf. unfold analyze. by rewrite for_each_analyze_ok.
Qed.

Lemma analyze_raise diffs1 d diffs2 k :
  Forall well_formed diffs1 → missing_key d = Some k →
  analyze repr self (diffs1 ++ d :: diffs2) = Raise (KeyError k).
Proof.
  intros Hwf Hk. unfold analyze.
  rewrite for_each_app, for_each_analyze_ok by done. cbn.
  by rewrite (analyze_diff_raise _ _ k).
Qed.

(** A list of diffs is well formed, or it splits at its first diff that is
    not. *)
Lemma well_formed_split diffs :
  Forall well_formed diffs
  ∨ ∃ diffs1 d diffs2 k,
      diffs = diffs1 ++ d :: diffs2 ∧ Forall well_formed diffs1
      ∧ missing_key d = Some k.
Proof.
  induction diffs as [|d diffs IH]; [by left|].
  destruct (missing_key d) as [k|] eqn:Hk.
  - right. exists [], d, diffs, k. by split_and!.
  - apply missing_key_None in Hk.
    destruct IH as [Hwf|(diffs1 & d' & diffs2 & k & -> & Hwf & Hk')].
    + left. by constructor.
    + right. exists (d :: diffs1), d', diffs2, k. split_and!; [done| |done].
      by constructor.
Qed.

Lemma analyze_returns_well_formed diffs issues :
  analyze repr self diffs = Ok issues → Forall well_formed diffs.
Proof.
  intros Hok.
  destruct (well_formed_split diffs)
    as [Hwf|(diffs1 & d & diffs2 & k & -> & Hwf & Hk)]; [done|].
  by rewrite (analyze_raise _ _ _ k) in Hok.
Qed.

Lemma elem_of_collected i diffs :
  i ∈ collected repr self diffs
  ↔ ∃ d file_path changes entry,
      d ∈ diffs ∧ diff_file d = Some file_path
      ∧ diff_changes d = Some changes ∧ entry ∈ analysis_tools self
      ∧ i ∈ tool_output repr file_path changes entry.
Proof.
  unfold collected. rewrite elem_of_concat. split.
  - intros (l & Hi & Hl). apply list_elem_of_fmap in Hl as (d & -> & Hd).
    unfold diff_output in Hi.
    destruct (diff_file d) as [f|] eqn:Hf;
      [|by apply elem_of_nil in Hi].
    destruct (diff_changes d) as [c|] eqn:Hc;
      [|by apply elem_of_nil in Hi].
    apply elem_of_concat in Hi as (l & Hi & Hl).
    apply list_elem_of_fmap in Hl as (entry & -> & Hentry).
    by exists d, f, c, entry.
  - intros (d & f & c & entry & Hd & Hf & Hc & Hentry & Hi).
    exists (diff_output repr self d). split.
    + unfold diff_output. rewrite Hf, Hc. apply elem_of_concat.
      exists (tool_output repr f c entry). split; [done|].
      apply list_elem_of_fmap. by exists entry.
    + apply list_elem_of_fmap. by exists d.
Qed.

End AnalyzeRun.

(** X20. [analyze] returns exactly on the diffs that all hold the keys
    'file' and 'changes', whatever the tools do: what a tool raises never
    leaves [analyze].  It then returns the deduplicated issues of all tools
    on all diffs, in the order of the diffs and of the tools.  Otherwise it
    raises [KeyError] with the key the first incomplete diff lacks. *)
Theorem analyze_returns_iff_well_formed (repr : string → string)
    (self : Analysis.Analyzer) (diffs : list Analysis.Diff) :
  (Forall Derived.well_formed diffs
   ↔ ∃ issues, Analysis.analyze repr self diffs = Ok issues)
  ∧ (∀ issues,
       Analysis.analyze repr self diffs = Ok issues →
       issues
       = Analyzer._deduplicate_issues (Derived.collected repr self diffs))
  ∧ ∀ diffs1 d diffs2 k,
      diffs = diffs1 ++ d :: diffs2 →
      Forall Derived.well_formed diffs1 →
      Derived.missing_key d = Some k →
      Analysis.analyze repr self diffs = Raise (KeyError k).
Proof.
  split_and!.
  - split.
    + intros Hwf. eexists. by apply analyze_ok.
    + intros [issues Hok]. by apply (analyze_returns_well_formed repr self _ issues).
  - intros issues Hok.
    pose proof (analyze_returns_well_formed repr self _ _ Hok) as Hwf.
    rewrite (analyze_ok repr self _ Hwf) in Hok. by injection Hok as <-.
  - intros diffs1 d diffs2 k -> Hwf Hk. by apply analyze_raise.
Qed.

(** X21. What [analyze] returns holds no two issues with the same file,
    line and message; each of its issues was returned by a tool on a diff,
    or reports a tool that raised on a diff; and every issue a tool
    returned, and every failure of a tool, is represented in it by an issue
    with the same file, line and message. *)
Theorem analyze_output_spec (repr : string → string)
    (self : Analysis.Analyzer) (diffs : list Analysis.Diff)
    (issues : list Issue) :
  Analysis.analyze repr self diffs = Ok issues →
  NoDup (Analyzer.key_of <$> issues)
  ∧ (∀ i, i ∈ issues →
       ∃ d file_path changes tool_name tool_func,
         d ∈ diffs ∧ Analysis.diff_file d = Some file_path
         ∧ Analysis.diff_changes d = Some changes
         ∧ (tool_name, tool_func) ∈ Analysis.analysis_tools self
         ∧ match tool_func file_path changes with
           | Ok found => i ∈ found
           | Raise e => i = Analysis.analysis_error repr file_path tool_name e
           end)
  ∧ ∀ d file_path changes tool_name tool_func,
      d ∈ diffs → Analysis.diff_file d = Some file_path →
      Analysis.diff_changes d = Some changes →
      (tool_name, tool_func) ∈ Analysis.analysis_tools self →
      match tool_func file_path changes with
      | Ok found => ∀ i, i ∈ found →
                         Analyzer.key_of i ∈ Analyzer.key_of <$> issues
      | Raise e =>
          (file_path, 0%Z, "Analysis failed: " +:+ Analysis.str_exn repr e)
          ∈ Analyzer.key_of <$> issues
      end.
Proof.
  intros Hok.
  pose proof (analyze_returns_well_formed repr self _ _ Hok) as Hwf.
  rewrite (analyze_ok repr self _ Hwf) in Hok. injection Hok as <-.
  unfold Analyzer._deduplicate_issues. rewrite dedup_invariant. cbn [snd].
  split_and!.
  - apply first_occurrences_NoDup.
  - intros i Hi.
    pose proof (elem_of_sublist _ _ _ Hi (first_occurrences_sublist _))
      as Hi'. clear Hi. rename Hi' into Hi.
    apply elem_of_collected in Hi
      as (d & f & c & [name t] & Hd & Hf & Hc & Hentry & Hi).
    exists d, f, c, name, t. split_and!; try done.
    unfold Derived.tool_output in Hi. cbn [fst snd] in Hi.
    destruct (t f c); [done|]. by apply list_elem_of_singleton in Hi.
  - intros d f c name t Hd Hf Hc Hentry.
    assert (∀ i, i ∈ Derived.tool_output repr f c (name, t) →
                 Analyzer.key_of i
                 ∈ Analyzer.key_of
                   <$> Analyzer.first_occurrences
                         (Derived.collected repr self diffs)) as Hin.
    { intros i Hi. apply first_occurrences_keys, list_elem_of_fmap.
      exists i. split; [done|]. apply elem_of_collected.
      by exists d, f, c, (name, t). }
    unfold Derived.tool_output in Hin. cbn [fst snd] in Hin.
    destruct (t f c) as [found|e]; [done|].
    apply (Hin (Analysis.analysis_error repr f name e)).
    apply list_elem_of_here.
Qed.

Lemma analyze_output_spec_witness :
  Analysis.analyze Pipeline.repr_plain Pipeline.analyzer_W293
    [Pipeline.diff_a; Pipeline.diff_a]
  = Ok [Examples.flake8_W293;
        Analysis.analysis_error Pipeline.repr_plain "a.py" "radon"
          (Exception "radon: not found")]
  ∧ NoDup (Analyzer.key_of
             <$> [Examples.flake8_W293;
                  Analysis.analysis_error Pipeline.repr_plain "a.py" "radon"
                    (Exception "radon: not found")]).
Proof.
  split; [reflexivity|].
  apply (analyze_output_spec Pipeline.repr_plain Pipeline.analyzer_W293
           [Pipeline.diff_a; Pipeline.diff_a]).
  reflexivity.
Defined.

Section FailingTools.

Import Analysis Derived.

Lemma first_occurrences_same_key x rest :
  (∀ y, y ∈ rest → Analyzer.key_of y = Analyzer.key_of x) →
  Analyzer.first_occurrences (x :: rest) = [x].
Proof.
  induction rest as [|y rest IH] using rev_ind; intros Hkey; [done|].
  rewrite app_comm_cons, first_occurrences_snoc, IH.
  - rewrite decide_False; [done|]. intros Hnot. apply Hnot.
    rewrite (Hkey y) by (apply elem_of_app; right; apply list_elem_of_here).
    rewrite fmap_cons. apply list_elem_of_here.
  - intros z Hz. apply Hkey, elem_of_app. by left.
Qed.

Lemma concat_singletons {A B} (f : A → B) (g : A → list B) (l : list A) :
  (∀ a, a ∈ l → g a = [f a]) → concat (g <$> l) = f <$> l.
Proof.
  induction l as [|a l IH]; intros Hg; [done|].
  rewrite !fmap_cons. cbn [concat].
  rewrite (Hg a) by apply list_elem_of_here.
  rewrite IH; [done|]. intros b Hb. apply Hg. by apply list_elem_of_further.
Qed.

End FailingTools.

(** X22. When every tool raises on a file, with exceptions of the same
    text, [analyze] reports one issue for the file, not one for each tool:
    the failures share file, line 0 and message, and the one that is kept
    names the first tool. *)
Theorem failing_tools_reported_once (repr : string → string)
    (self : Analysis.Analyzer) (d : Analysis.Diff)
    (file_path changes tool_name msg : string)
    (tool_func : Analysis.tool_func)
    (rest : list (string * Analysis.tool_func)) :
  Analysis.diff_file d = Some file_path →
  Analysis.diff_changes d = Some changes →
  Analysis.analysis_tools self = (tool_name, tool_func) :: rest →
  (∀ entry : string * Analysis.tool_func,
     entry ∈ Analysis.analysis_tools self →
     ∃ e, entry.2 file_path changes = Raise e
          ∧ Analysis.str_exn repr e = msg) →
  Analysis.analyze repr self [d]
  = Ok [{| file := Some file_path; line := Some 0%Z;
           severity := Some "error"; category := Some "analysis_error";
           tool := Some tool_name;
           message := Some ("Analysis failed: " +:+ msg);
           code := None; complexity := None; function := None;
           test_id := None; confidence := None |}].
Proof.
  intros Hf Hc Htools Hfail.
  rewrite analyze_ok
    by (constructor; [by split; eexists|constructor]).
  f_equal. unfold Derived.collected, Derived.diff_output.
  cbn [fmap list_fmap concat]. rewrite Hf, Hc, app_nil_r.
  rewrite (concat_singletons
             (λ entry, {| file := Some file_path; line := Some 0%Z;
                          severity := Some "error";
                          category := Some "analysis_error";
                          tool := Some entry.1;
                          message := Some ("Analysis failed: " +:+ msg);
                          code := None; complexity := None; function := None;
                          test_id := None; confidence := None |})).
  - rewrite Htools, fmap_cons. unfold Analyzer._deduplicate_issues.
    rewrite dedup_invariant. cbn [snd fst].
    apply first_occurrences_same_key.
    intros y Hy. by apply list_elem_of_fmap in Hy as (entry & -> & _).
  - intros entry Hentry. destruct (Hfail entry Hentry) as (e & He & Hmsg).
    unfold Derived.tool_output, Analysis.analysis_error.
    by rewrite He, Hmsg.
Qed.

Lemma failing_tools_reported_once_witness :
  Analysis.analyze Pipeline.repr_plain Pipeline.analyzer_failing
    [Pipeline.diff_a]
  = Ok [{| file := Some "a.py"; line := Some 0%Z;
           severity := Some "error"; category := Some "analysis_error";
           tool := Some "flake8";
           message := Some ("Analysis failed: " +:+ "tool missing");
           code := None; complexity := None; function := None;
           test_id := None; confidence := None |}].
Proof.
  apply (failing_tools_reported_once Pipeline.repr_plain
           Pipeline.analyzer_failing Pipeline.diff_a "a.py" "+x = 1 "
           "flake8" "tool missing"
           (Pipeline.tool_fails (Exception "tool missing"))
           [("radon", Pipeline.tool_fails (Exception "tool missing"));
            ("bandit", Pipeline.tool_fails (Exception "tool missing"))]);
    [reflexivity|reflexivity|reflexivity|].
  intros entry Hentry. exists (Exception "tool missing").
  cbn in Hentry.
  repeat (apply elem_of_cons in Hentry as [->|Hentry]; [by split|]).
  by apply elem_of_nil in Hentry.
Defined.

(** ** The pipeline of main.py *)

Section PipelineRun.

Import Scorer ScoreSpec Analysis Derived Main.




End PipelineRun.



